(** * stdi: raw standard-input readers

    A shallow embedding of [read_char], [raw_read_line] and [read_line]
    (library.c / the header-only variant), together with the outside world
    they talk to: the [read] system call on standard input and the C
    allocator.  The functions are written in an early-return state monad
    over that world, one definition per C function (the loop head that the
    two line readers share is written once), and the two [while (TRUE)]
    loops are driven by a fuel-indexed iterator. *)

From Stdlib Require Import ZArith Lia.
From Stdlib Require Import Init.Byte.
From stdpp Require Import base list gmap.

Open Scope Z_scope.

(** ** Machine integers and characters *)

(** [size_t] is [unsigned long]: arithmetic wraps modulo 2^64. *)
Definition SIZE_WIDTH : Z := 64.
Definition size_t (x : Z) : Z := x mod 2 ^ SIZE_WIDTH.

(** [#define EOF (-1)] *)
Definition EOF : Z := -1.

(** Integer promotion of a [char] holding byte [c].  Whether plain [char] is
    signed is left to the platform (signed on x86-64 Linux, unsigned on
    AArch64 Linux). *)
Definition char_to_int (char_signed : bool) (c : byte) : Z :=
  let u := Z.of_N (Byte.to_N c) in
  if char_signed && (128 <=? u) then u - 256 else u.

(** ** The world outside the library *)

Abbreviation ptr := nat (only parsing).

(** A byte of allocated storage; [None] is storage never written. *)
Abbreviation cell := (option byte) (only parsing).

(** What the next [read] system call does: fail with -1, or hand over at most
    [k] bytes (a short read).  Without a scripted behaviour the call hands
    over everything it was asked for, as far as the stream goes. *)
Inductive read_behaviour :=
| RdFail
| RdAtMost (k : positive).

(** Where a [char*] argument points: into a heap block, or at a local. *)
Inductive addr :=
| InBlock (p : ptr) (off : Z)
| OnStack.

Inductive event :=
| EvMalloc (size : Z) (res : option ptr)
| EvRealloc (p : ptr) (size : Z) (res : option ptr)
| EvFree (p : ptr)
| EvRead (buffer : addr) (size : Z) (res : Z).

Record World := mkWorld {
  stdin : list byte;                  (* bytes of the stream not yet consumed *)
  rd_script : list read_behaviour;    (* behaviour of the coming read calls *)
  alloc_script : list bool;           (* outcome of the coming allocations *)
  indet : nat -> byte;                (* values of uninitialised objects *)
  heap : gmap ptr (list cell);        (* live blocks allocated by the call *)
  next_ptr : ptr;                     (* next fresh block address *)
  trace : list event                  (* calls made so far, oldest first *)
}.

Definition initial_world (input : list byte) : World :=
  {| stdin := input; rd_script := []; alloc_script := [];
     indet := fun _ => x00; heap := ∅; next_ptr := 1%nat; trace := [] |}.

Definition set_stdin (s : list byte) (rs : list read_behaviour) (w : World) : World :=
  {| stdin := s; rd_script := rs; alloc_script := alloc_script w;
     indet := indet w; heap := heap w; next_ptr := next_ptr w;
     trace := trace w |}.

Definition set_alloc_script (a : list bool) (w : World) : World :=
  {| stdin := stdin w; rd_script := rd_script w; alloc_script := a;
     indet := indet w; heap := heap w; next_ptr := next_ptr w;
     trace := trace w |}.

Definition set_heap (h : gmap ptr (list cell)) (n : ptr) (w : World) : World :=
  {| stdin := stdin w; rd_script := rd_script w;
     alloc_script := alloc_script w; indet := indet w; heap := h;
     next_ptr := n; trace := trace w |}.

Definition log (e : event) (w : World) : World :=
  {| stdin := stdin w; rd_script := rd_script w;
     alloc_script := alloc_script w; indet := indet w; heap := heap w;
     next_ptr := next_ptr w; trace := trace w ++ [e] |}.

(** ** Control flow: a state monad with early [return] *)

Inductive flow (A : Type) :=
| Val (a : A)                 (* fall through with a value *)
| Return (r : option ptr)     (* the C function returned [r]; [None] is NULL *)
| Fault.                      (* access outside the live allocation *)
Arguments Val {A} a.
Arguments Return {A} r.
Arguments Fault {A}.

Definition M (A : Type) : Type := World -> flow A * World.

Definition pure {A} (a : A) : M A := fun w => (Val a, w).
Definition ret_fn {A} (r : option ptr) : M A := fun w => (Return r, w).

Definition bind {A B} (m : M A) (f : A -> M B) : M B :=
  fun w =>
    match m w with
    | (Val a, w1) => f a w1
    | (Return r, w1) => (Return r, w1)
    | (Fault, w1) => (Fault, w1)
    end.

Notation "x <- m ;; k" := (bind m (fun x => k))
  (at level 100, m at next level, right associativity).
Notation "m ;;; k" := (bind m (fun _ => k))
  (at level 100, right associativity).

(** Result of running a C function with a bounded number of loop iterations. *)
Inductive outcome :=
| Returned (r : option ptr)
| Crashed
| OutOfFuel.

(** [while (TRUE) { body }] over the locals [L]. *)
Fixpoint loop {L} (body : L -> M L) (fuel : nat) (l : L) (w : World)
  : outcome * World :=
  match fuel with
  | O => (OutOfFuel, w)
  | S fuel' =>
      match body l w with
      | (Val l', w') => loop body fuel' l' w'
      | (Return r, w') => (Returned r, w')
      | (Fault, w') => (Crashed, w')
      end
  end.

(** The locals and world at the head of the loop after [n] full iterations,
    if the loop is still running then. *)
Fixpoint loop_state {L} (body : L -> M L) (n : nat) (l : L) (w : World)
  : option (L * World) :=
  match n with
  | O => Some (l, w)
  | S n' =>
      match body l w with
      | (Val l', w') => loop_state body n' l' w'
      | _ => None
      end
  end.

Section Stdi.

(** Build-time configuration and platform. *)
Variable STDI_READ_LINE_BUFFER_SIZE : Z.
Variable char_signed : bool.
(** Largest block the allocator ever grants (PTRDIFF_MAX with glibc). *)
Variable max_block : Z.

(** ** The system call and the allocator *)

(** [syscall(SYS_read, STDIN_FILENO, _, size)]: [None] is the error return
    -1, otherwise the bytes handed over, at most [size] of them and none
    only at end of stream or for [size = 0]. *)
Definition sys_read (size : Z) (w : World) : option (list byte) * World :=
  let avail := Z.min size (Z.of_nat (length (stdin w))) in
  match rd_script w with
  | RdFail :: rs => (None, set_stdin (stdin w) rs w)
  | RdAtMost k :: rs =>
      let n := Z.to_nat (Z.min avail (Z.pos k)) in
      (Some (take n (stdin w)), set_stdin (drop n (stdin w)) rs w)
  | [] =>
      let n := Z.to_nat avail in
      (Some (take n (stdin w)), set_stdin (drop n (stdin w)) [] w)
  end.

(** Does the allocator grant a block of [size] bytes now? *)
Definition alloc_grant (size : Z) (w : World) : bool * World :=
  match alloc_script w with
  | [] => (size <=? max_block, w)
  | b :: bs => (b && (size <=? max_block), set_alloc_script bs w)
  end.

Definition malloc (size : Z) : M (option ptr) :=
  fun w =>
    let (ok, w1) := alloc_grant size w in
    if ok then
      let p := next_ptr w1 in
      (Val (Some p),
       log (EvMalloc size (Some p))
         (set_heap (<[p := replicate (Z.to_nat size) None]> (heap w1)) (S p) w1))
    else (Val None, log (EvMalloc size None) w1).

(** On success the block moves to a fresh address, keeping its contents up
    to the smaller of the two sizes; on failure the old block stays live. *)
Definition realloc (p : ptr) (size : Z) : M (option ptr) :=
  fun w =>
    match heap w !! p with
    | None => (Fault, w)
    | Some cells =>
        let (ok, w1) := alloc_grant size w in
        if ok then
          let q := next_ptr w1 in
          (Val (Some q),
           log (EvRealloc p size (Some q))
             (set_heap (<[q := resize (Z.to_nat size) None cells]>
                          (delete p (heap w1))) (S q) w1))
        else (Val None, log (EvRealloc p size None) w1)
    end.

Definition free (p : ptr) : M unit :=
  fun w =>
    match heap w !! p with
    | None => (Fault, w)
    | Some _ =>
        (Val tt, log (EvFree p) (set_heap (delete p (heap w)) (next_ptr w) w))
    end.

(** [buffer[i] = c] *)
Definition store (p : ptr) (i : Z) (c : byte) : M unit :=
  fun w =>
    match heap w !! p with
    | None => (Fault, w)
    | Some cells =>
        if (0 <=? i) && (i <? Z.of_nat (length cells)) then
          (Val tt,
           set_heap (<[p := <[Z.to_nat i := Some c]> cells]> (heap w))
             (next_ptr w) w)
        else (Fault, w)
    end.

(** The kernel copying [bs] to [buffer + off]. *)
Definition store_bytes (p : ptr) (off : Z) (bs : list byte) : M unit :=
  fun w =>
    match heap w !! p with
    | None => (Fault, w)
    | Some cells =>
        if (0 <=? off) && (off + Z.of_nat (length bs) <=? Z.of_nat (length cells))
        then
          (Val tt,
           set_heap (<[p := list_inserts (Z.to_nat off) (Some <$> bs) cells]>
                       (heap w)) (next_ptr w) w)
        else (Fault, w)
    end.

(** The value of an object that was never written. *)
Definition uninit_char : M byte :=
  fun w => (Val (indet w (length (trace w))), w).

(** [buffer[i]] as an rvalue. *)
Definition load (p : ptr) (i : Z) : M byte :=
  fun w =>
    match heap w !! p with
    | None => (Fault, w)
    | Some cells =>
        if (0 <=? i) && (i <? Z.of_nat (length cells)) then
          match cells !! Z.to_nat i with
          | Some (Some c) => (Val c, w)
          | _ => uninit_char w
          end
        else (Fault, w)
    end.

(** ** library.c *)

(** [ssize_t fread_line(char* buffer, const size_t size)]: the count
    returned, paired with the bytes that were stored at [buffer]. *)
Definition fread_line (buffer : addr) (size : Z) : M (Z * list byte) :=
  fun w =>
    match sys_read size w with
    | (None, w1) => (Val (-1, []), log (EvRead buffer size (-1)) w1)
    | (Some bs, w1) =>
        let n := Z.of_nat (length bs) in
        let w2 := log (EvRead buffer size n) w1 in
        match buffer with
        | OnStack => (Val (n, bs), w2)
        | InBlock p off => (store_bytes p off bs ;;; pure (n, bs)) w2
        end
    end.

Record locals := mkLocals {
  l_buffer : ptr;
  l_written : Z;
  l_length : Z
}.

(** The head of both loops, the same statements in [raw_read_line] and in
    [read_line]:
      if (written == SIZE) { new_buffer = realloc(buffer, SIZE + length + 1);
        if (new_buffer == NULL) { free(buffer); return NULL; }
        buffer = new_buffer; written = 0; } *)
Definition grow_when_full (l : locals) : M locals :=
  if l_written l =? STDI_READ_LINE_BUFFER_SIZE then
    new_buffer <- realloc (l_buffer l)
      (size_t (1 * (STDI_READ_LINE_BUFFER_SIZE + l_length l + 1))) ;;
    match new_buffer with
    | None => free (l_buffer l) ;;; ret_fn None
    | Some q => pure (mkLocals q 0 (l_length l))
    end
  else pure l.

(** One iteration of the loop of [raw_read_line]. *)
Definition raw_read_line_body (l : locals) : M locals :=
  l1 <- grow_when_full l ;;
  c0 <- uninit_char ;;
  r <- fread_line OnStack 1 ;;
  let bytes_read := fst r in
  let c := match snd r with b :: _ => b | [] => c0 end in
  if bytes_read =? -1 then
    free (l_buffer l1) ;;; ret_fn None
  else if (char_to_int char_signed c =? 0) || (char_to_int char_signed c =? EOF)
  then
    store (l_buffer l1) (l_length l1) x00 ;;; ret_fn (Some (l_buffer l1))
  else
    store (l_buffer l1) (l_length l1) c ;;;
    pure (mkLocals (l_buffer l1) (size_t (l_written l1 + 1))
            (size_t (l_length l1 + 1))).

Definition raw_read_line (fuel : nat) (w : World) : outcome * World :=
  match malloc (size_t (1 * (STDI_READ_LINE_BUFFER_SIZE + 1))) w with
  | (Val (Some buffer), w1) =>
      loop raw_read_line_body fuel (mkLocals buffer 0 0) w1
  | (Val None, w1) => (Returned None, w1)
  | (Return r, w1) => (Returned r, w1)
  | (Fault, w1) => (Crashed, w1)
  end.

(** Locals and world of [raw_read_line] at the loop head after [n]
    iterations. *)
Definition raw_read_line_state (n : nat) (w : World) : option (locals * World) :=
  match malloc (size_t (1 * (STDI_READ_LINE_BUFFER_SIZE + 1))) w with
  | (Val (Some buffer), w1) =>
      loop_state raw_read_line_body n (mkLocals buffer 0 0) w1
  | _ => None
  end.

(** One iteration of the loop of [read_line]. *)
Definition read_line_body (l : locals) : M locals :=
  l1 <- grow_when_full l ;;
  l2 <- (if l_written l1 =? 0 then
           r <- fread_line (InBlock (l_buffer l1) (l_length l1))
                  (size_t (STDI_READ_LINE_BUFFER_SIZE - l_length l1)) ;;
           let bytes_read := fst r in
           if bytes_read =? -1 then
             free (l_buffer l1) ;;; ret_fn None
           else if bytes_read =? 0 then
             store (l_buffer l1) (l_length l1) x00 ;;;
             ret_fn (Some (l_buffer l1))
           else
             pure (mkLocals (l_buffer l1) (size_t (l_written l1 + bytes_read))
                     (size_t (l_length l1 + bytes_read)))
         else pure l1) ;;
  if 0 <? l_length l2 then
    c <- load (l_buffer l2) (l_length l2 - 1) ;;
    if (char_to_int char_signed c =? EOF) || (char_to_int char_signed c =? 10)
    then
      store (l_buffer l2) (l_length l2 - 1) x00 ;;;
      ret_fn (Some (l_buffer l2))
    else pure l2
  else pure l2.

Definition read_line (fuel : nat) (w : World) : outcome * World :=
  match malloc (size_t (1 * (STDI_READ_LINE_BUFFER_SIZE + 1))) w with
  | (Val (Some buffer), w1) =>
      loop read_line_body fuel (mkLocals buffer 0 0) w1
  | (Val None, w1) => (Returned None, w1)
  | (Return r, w1) => (Returned r, w1)
  | (Fault, w1) => (Crashed, w1)
  end.

(** Locals and world of [read_line] at the loop head after [n] iterations. *)
Definition read_line_state (n : nat) (w : World) : option (locals * World) :=
  match malloc (size_t (1 * (STDI_READ_LINE_BUFFER_SIZE + 1))) w with
  | (Val (Some buffer), w1) =>
      loop_state read_line_body n (mkLocals buffer 0 0) w1
  | _ => None
  end.

(** [char read_char()] *)
Definition read_char (w : World) : byte * World :=
  match (c0 <- uninit_char ;; r <- fread_line OnStack 1 ;; pure (c0, r)) w with
  | (Val (c0, (bytes_read, bs)), w1) =>
      let c := match bs with b :: _ => b | [] => c0 end in
      (if bytes_read =? 1 then c else x00, w1)
  | (_, w1) => (x00, w1)
  end.

(** [n] calls of [read_char] in a row. *)
Fixpoint read_chars (n : nat) (w : World) : list byte * World :=
  match n with
  | O => ([], w)
  | S n' =>
      let (c, w1) := read_char w in
      let (cs, w2) := read_chars n' w1 in
      (c :: cs, w2)
  end.

End Stdi.

(** ** What a caller sees *)

(** The text a [char*] result denotes: the bytes before the first
    terminator. *)
Fixpoint c_string (cells : list cell) : list byte :=
  match cells with
  | Some x00 :: _ => []
  | Some c :: rest => c :: c_string rest
  | _ => []
  end.

(** The block a returned pointer refers to. *)
Definition result_cells (r : outcome * World) : option (list cell) :=
  match fst r with
  | Returned (Some p) => heap (snd r) !! p
  | _ => None
  end.

(** The text returned, if the call returned a buffer. *)
Definition result_text (r : outcome * World) : option (list byte) :=
  c_string <$> result_cells r.

(** Number of successful [realloc] calls made so far. *)
Definition reallocs (w : World) : nat :=
  length (omap (fun e => match e with
                         | EvRealloc _ _ (Some q) => Some q
                         | _ => None
                         end) (trace w)).

(** The [(offset, size)] of every read issued into the buffer, in order. *)
Definition read_requests (w : World) : list (Z * Z) :=
  omap (fun e => match e with
                 | EvRead (InBlock _ off) size _ => Some (off, size)
                 | _ => None
                 end) (trace w).

(** The pointer handed to the caller, if any. *)
Definition returned_buffer (o : outcome) : option ptr :=
  match o with
  | Returned r => r
  | _ => None
  end.

(** ** Predicates used in the statements *)

(** The bytes that make [raw_read_line] stop: [c == '\0' || c == EOF]
    compares the promoted [char], so 0xFF stops it where [char] is signed. *)
Definition stops (char_signed : bool) (c : byte) : Prop :=
  c = x00 \/ (char_signed = true /\ c = xff).

(** The bytes that make [read_line] return when they are the last one
    written: [buffer[length - 1] == EOF || buffer[length - 1] == '\n']. *)
Definition line_ends (char_signed : bool) (c : byte) : Prop :=
  c = x0a \/ (char_signed = true /\ c = xff).

(** Weakest precondition of a monadic computation. *)
Definition wp {A} (m : M A) (w : World) (Q : flow A -> World -> Prop) : Prop :=
  Q (m w).1 (m w).2.

(** The call owns exactly its buffer. *)
Definition owns (l : locals) (w : World) : Prop :=
  exists cells, heap w = {[l_buffer l := cells]}.

(** What the heap looks like once a reader is done: nothing is left after a
    NULL, and exactly the returned block after a success. *)
Definition settled (o : outcome) (w : World) : Prop :=
  match o with
  | Returned None => heap w = ∅
  | Returned (Some p) => exists cells, heap w = {[p := cells]}
  | _ => True
  end.

Definition flow_settled (r : flow locals) (w : World) : Prop :=
  match r with
  | Val l' => owns l' w
  | Return r' => settled (Returned r') w
  | Fault => True
  end.

(** Settled, and no access went outside the block. *)
Definition safe (o : outcome) (w : World) : Prop :=
  match o with
  | Crashed => False
  | _ => settled o w
  end.

Section Invariants.

Variable STDI_READ_LINE_BUFFER_SIZE : Z.
Variable char_signed : bool.
Variable max_block : Z.

(** Loop invariant of [read_line]: the block holds at least one chunk and
    the terminator, and [length] never passes one chunk. *)
Definition read_line_inv (l : locals) (w : World) : Prop :=
  exists cells, heap w = {[l_buffer l := cells]} /\
    STDI_READ_LINE_BUFFER_SIZE + 1 <= Z.of_nat (length cells) <= max_block /\
    0 <= l_length l <= STDI_READ_LINE_BUFFER_SIZE.

(** Loop invariant of [raw_read_line]: the block ends one chunk and the
    terminator after the start of the current window. *)
Definition raw_read_line_inv (l : locals) (w : World) : Prop :=
  exists cells, heap w = {[l_buffer l := cells]} /\
    Z.of_nat (length cells) <= max_block /\
    0 <= l_written l <= STDI_READ_LINE_BUFFER_SIZE /\ 0 <= l_length l /\
    Z.of_nat (length cells) =
      l_length l - l_written l + STDI_READ_LINE_BUFFER_SIZE + 1.

(** Contents of the block while [raw_read_line] has stored [stored]. *)
Definition filled (stored : list byte) (cap : Z) : list cell :=
  (Some <$> stored) ++ replicate (Z.to_nat cap - length stored) None.

(** Locals and world of [raw_read_line] with [stored] in the buffer, [todo]
    still on the stream, and no scripted failure ahead. *)
Definition raw_state (stored todo : list byte) (ind : nat -> byte)
    (p : ptr) (wr : Z) (np : ptr) (tr : list event) : locals * World :=
  (mkLocals p wr (Z.of_nat (length stored)),
   mkWorld todo [] [] ind
     {[p := filled stored
              (Z.of_nat (length stored) - wr + STDI_READ_LINE_BUFFER_SIZE + 1)]}
     np tr).

(** Nothing still to come stops [raw_read_line]: neither a byte of the
    stream nor the value an unwritten [c] holds. *)
Definition never_stops (w : World) : Prop :=
  rd_script w = [] /\ (forall n, ~ stops char_signed (indet w n)) /\
  Forall (fun c => ~ stops char_signed c) (stdin w).

End Invariants.

(** ** Concrete inputs *)

Definition PTRDIFF_MAX : Z := 2 ^ 63 - 1.

Definition abcdefghij : list byte :=
  ["a"; "b"; "c"; "d"; "e"; "f"; "g"; "h"; "i"; "j"]%byte.

Definition hi : list byte := ["h"; "i"]%byte.

(** The stream "hi" followed by end of stream. *)
Definition hi_world : World := initial_world hi.

(** "hi\n" arriving in two pieces: the first read hands over "hi" only. *)
Definition hi_short_world : World :=
  set_stdin ["h"; "i"; x0a]%byte [RdAtMost 2] (initial_world []).

(** [read_line] on [hi_world] after its first iteration. *)
Definition spin_world : World := Eval vm_compute in
    match read_line_state 250 true PTRDIFF_MAX 1 hi_world with
    | Some (_, w) => w
    | None => hi_world
    end.

(** [read_line] on [hi_short_world] after its first iteration. *)
Definition spin_short_world : World := Eval vm_compute in
    match read_line_state 250 true PTRDIFF_MAX 1 hi_short_world with
    | Some (_, w) => w
    | None => hi_short_world
    end.

(** "hi", end of stream, and an unwritten [c] that still holds the last byte
    read, as it does when the compiler keeps [c] in one stack slot. *)
Definition stale_world : World :=
  {| stdin := hi; rd_script := []; alloc_script := [];
     indet := fun _ => "i"%byte; heap := ∅; next_ptr := 1%nat; trace := [] |}.

(** The second allocation fails. *)
Definition realloc_fails_world : World :=
  set_alloc_script [true; false] (initial_world abcdefghij).

(** "hi\nabc" followed by end of stream: a line and the start of the next,
    as a pipe or a file hands them over in one read. *)
Definition hi_newline_abc : list byte := ["h"; "i"; x0a; "a"; "b"; "c"]%byte.

(** "ab\ncd" followed by end of stream. *)
Definition ab_newline_cd : list byte := ["a"; "b"; x0a; "c"; "d"]%byte.

(** "hi\nabc", a null byte, then "z". *)
Definition two_lines_nul : list byte :=
  ["h"; "i"; x0a; "a"; "b"; "c"; x00; "z"]%byte.

(** ** Accounting for the stream, the buffer and the calls *)

(** Number of reads so far that returned 0. *)
Definition zero_reads (w : World) : nat :=
  length (omap (fun e => match e with
                         | EvRead _ _ Z0 => Some tt
                         | _ => None
                         end) (trace w)).

(** The calls that failed: an allocation or reallocation that returned
    NULL, a read that returned -1. *)
Definition is_failure (e : event) : bool :=
  match e with
  | EvMalloc _ None => true
  | EvRealloc _ _ None => true
  | EvRead _ _ res => res =? -1
  | _ => false
  end.

(** Number of calls so far that failed. *)
Definition failures (w : World) : nat :=
  length (List.filter is_failure (trace w)).

(** One step of a reader run from [w]: a failure is followed by
    [return NULL], and nothing else is. *)
Definition failing (w : World) (r : flow locals) (w' : World) : Prop :=
  match r with
  | Return None => failures w' = S (failures w)
  | _ => failures w' = failures w
  end.

(** A terminal in canonical mode: every read hands over one line, its
    newline included. *)
Definition line_reads (lines : list (list byte)) : list read_behaviour :=
  (fun l => RdAtMost (Pos.of_succ_nat (length l))) <$> lines.

Definition with_newlines (lines : list (list byte)) : list byte :=
  concat ((fun l => l ++ [x0a]) <$> lines).

Section Caller.
Variables (C : Z) (sg : bool) (mb : Z).

(** A caller that calls [read_line] [n] times and keeps every buffer. *)
Fixpoint read_lines (fuel n : nat) (w : World) : list (option ptr) * World :=
  match n with
  | O => ([], w)
  | S n' =>
      let (o, w1) := read_line C sg mb fuel w in
      let (ps, w2) := read_lines fuel n' w1 in
      (returned_buffer o :: ps, w2)
  end.
End Caller.

Section Accounting.
Variables (C : Z) (sg : bool) (mb : Z).

(** Loop invariant of [read_line] on a stream that started as [s0]: the
    buffer holds exactly the bytes taken from the stream so far. *)
Definition read_line_keeps (s0 : list byte) (l : locals) (w : World) : Prop :=
  exists consumed cap,
    s0 = consumed ++ stdin w /\
    heap w = {[l_buffer l := filled consumed cap]} /\
    l_length l = Z.of_nat (length consumed) /\
    l_written l = l_length l /\ l_length l <= C /\ C + 1 <= cap <= mb.

(** What [read_line] has done to the stream [s0], when it is over and while
    it runs: the bytes taken are in the buffer in order, but for a final line
    end, and they are at most one chunk; a NULL comes after no byte or one
    whole chunk. *)
Definition read_line_took (s0 : list byte) (o : outcome) (w : World) : Prop :=
  match o with
  | Returned (Some p) =>
      exists consumed kept tail,
        s0 = consumed ++ stdin w /\
        heap w = {[p := (Some <$> kept) ++ Some x00 :: tail]} /\
        (kept = consumed \/ exists c, consumed = kept ++ [c] /\ line_ends sg c) /\
        Z.of_nat (length consumed) <= C
  | Returned None =>
      exists consumed,
        s0 = consumed ++ stdin w /\
        (consumed = [] \/ Z.of_nat (length consumed) = C) /\
        heap w = ∅
  | Crashed => False
  | OutOfFuel =>
      exists consumed p cap,
        s0 = consumed ++ stdin w /\
        heap w = {[p := filled consumed cap]} /\
        Z.of_nat (length consumed) <= C
  end.

(** [raw_read_line] after [n] bytes and [j] reallocations since [r0]. *)
Definition raw_read_line_grown (r0 n : nat) (l : locals) (w : World) : Prop :=
  exists cells j,
    heap w = {[l_buffer l := cells]} /\
    reallocs w = (r0 + j)%nat /\
    l_length l = Z.of_nat n /\
    l_length l = C * Z.of_nat j + l_written l /\
    0 <= l_written l <= C /\
    Z.of_nat (length cells) = C * (Z.of_nat j + 1) + 1 /\
    Z.of_nat (length cells) <= mb.

(** Loop invariant of [raw_read_line] on a stream that started as [s0], with
    [z0] reads of nothing before the call: the bytes taken are in the buffer
    in order, and nothing else is unless a read returned nothing. *)
Definition raw_read_line_keeps (s0 : list byte) (z0 : nat) (l : locals)
    (w : World) : Prop :=
  exists consumed stored,
    s0 = consumed ++ stdin w /\
    consumed `sublist_of` stored /\
    Forall (fun c => ~ stops sg c) stored /\
    heap w = {[l_buffer l :=
                 filled stored (l_length l - l_written l + C + 1)]} /\
    l_length l = Z.of_nat (length stored) /\
    0 <= l_written l <= C /\
    l_length l - l_written l + C + 1 <= mb /\
    (z0 <= zero_reads w)%nat /\
    (zero_reads w = z0 -> stored = consumed).

(** What [raw_read_line] has done to the stream when it is over. *)
Definition raw_read_line_took (s0 : list byte) (z0 : nat) (o : outcome)
    (w : World) : Prop :=
  match o with
  | Returned (Some p) =>
      exists consumed last stored tail,
        s0 = consumed ++ last ++ stdin w /\
        (last = [] \/ exists t, last = [t] /\ stops sg t) /\
        consumed `sublist_of` stored /\
        Forall (fun c => ~ stops sg c) stored /\
        heap w = {[p := (Some <$> stored) ++ Some x00 :: tail]} /\
        (zero_reads w = z0 -> stored = consumed /\ last <> [])
  | Returned None => heap w = ∅
  | Crashed => False
  | OutOfFuel => True
  end.
End Accounting.

(** Two lines typed at a terminal. *)
Definition two_lines : list (list byte) := [hi; ["a"; "b"; "c"]%byte].

Definition terminal_world : World :=
  set_stdin (with_newlines two_lines) (line_reads two_lines) (initial_world []).

(** The first read fails. *)
Definition read_fails_world : World := set_stdin hi [RdFail] (initial_world []).

Ltac frame_cases :=
  repeat (case_match; simplify_eq/=); try reflexivity.

Ltac simp :=
  unfold log, set_heap, set_stdin, set_alloc_script;
  cbn [pure ret_fn fst snd l_buffer l_length l_written stdin rd_script
       alloc_script indet heap next_ptr trace].

(** * Proofs *)

(** ** Integers and characters *)

Lemma size_t_small x : 0 <= x < 2 ^ 64 -> size_t x = x.
Proof. intros H. unfold size_t, SIZE_WIDTH. apply Z.mod_small. exact H. Qed.

Lemma size_t_nonneg x : 0 <= size_t x.
Proof. unfold size_t, SIZE_WIDTH. apply Z.mod_pos_bound. lia. Qed.

Lemma char_to_int_null sg c : (char_to_int sg c =? 0) = true <-> c = x00.
Proof.
  split; [| intros ->; by destruct sg].
  destruct sg; destruct c; vm_compute; congruence.
Qed.

Lemma char_to_int_EOF sg c :
  (char_to_int sg c =? EOF) = true <-> sg = true /\ c = xff.
Proof.
  split; [| intros [-> ->]; done].
  destruct sg; destruct c; vm_compute; intuition congruence.
Qed.

Lemma stop_test sg c :
  ((char_to_int sg c =? 0) || (char_to_int sg c =? EOF)) = true <-> stops sg c.
Proof. rewrite orb_true_iff, char_to_int_null, char_to_int_EOF. reflexivity. Qed.

Lemma stop_test_false sg c :
  ~ stops sg c ->
  ((char_to_int sg c =? 0) || (char_to_int sg c =? EOF)) = false.
Proof. intros H. apply not_true_is_false. by rewrite stop_test. Qed.

Lemma char_to_int_newline sg c : (char_to_int sg c =? 10) = true <-> c = x0a.
Proof.
  split; [| intros ->; by destruct sg].
  destruct sg; destruct c; vm_compute; congruence.
Qed.

Lemma line_end_test sg c :
  ((char_to_int sg c =? EOF) || (char_to_int sg c =? 10)) = true
  <-> line_ends sg c.
Proof.
  rewrite orb_true_iff, char_to_int_newline, char_to_int_EOF.
  unfold line_ends. tauto.
Qed.

Lemma line_end_test_false sg c :
  ~ line_ends sg c ->
  ((char_to_int sg c =? EOF) || (char_to_int sg c =? 10)) = false.
Proof. intros H. apply not_true_is_false. by rewrite line_end_test. Qed.

Lemma c_string_cons c rest :
  c <> x00 -> c_string (Some c :: rest) = c :: c_string rest.
Proof. intros H. destruct c; [congruence | reflexivity ..]. Qed.

Lemma c_string_terminated pre tail :
  Forall (fun c => c <> x00) pre ->
  c_string ((Some <$> pre) ++ Some x00 :: tail) = pre.
Proof.
  induction 1 as [|c pre Hc _ IH]; [reflexivity|].
  cbn [fmap list_fmap app]. rewrite c_string_cons by done.
  f_equal. exact IH.
Qed.

(** ** Rules of the monad *)

Lemma wp_bind {A B} (m : M A) (f : A -> M B) w Q :
  wp m w (fun r w1 =>
            match r with
            | Val a => wp (f a) w1 Q
            | Return r' => Q (Return r') w1
            | Fault => Q Fault w1
            end) ->
  wp (bind m f) w Q.
Proof. unfold wp, bind. destruct (m w) as [[a|r|] w1]; auto. Qed.

Lemma wp_mono {A} (m : M A) w (Q Q' : flow A -> World -> Prop) :
  wp m w Q -> (forall r w', Q r w' -> Q' r w') -> wp m w Q'.
Proof. unfold wp. auto. Qed.

Lemma wp_pure {A} (a : A) w (Q : flow A -> World -> Prop) :
  Q (Val a) w -> wp (pure a) w Q.
Proof. auto. Qed.

Lemma wp_ret_fn {A} r w (Q : flow A -> World -> Prop) :
  Q (Return r) w -> wp (ret_fn r) w Q.
Proof. auto. Qed.

Lemma wp_conj {A} (m : M A) w (Q1 Q2 : flow A -> World -> Prop) :
  wp m w Q1 -> wp m w Q2 -> wp m w (fun r w' => Q1 r w' /\ Q2 r w').
Proof. unfold wp. auto. Qed.

Section Loops.
Context {L : Type} (body : L -> M L) (I : L -> World -> Prop)
  (Q : outcome -> World -> Prop).
Hypothesis body_ok : forall l w, I l w ->
  wp (body l) w (fun r w' =>
    match r with
    | Val l' => I l' w'
    | Return r' => Q (Returned r') w'
    | Fault => Q Crashed w'
    end).

Lemma loop_wp fuel : forall l w,
  I l w -> (forall w', Q OutOfFuel w') ->
  Q (loop body fuel l w).1 (loop body fuel l w).2.
Proof.
  induction fuel as [|fuel IH]; intros l w Hi Hq; cbn; [apply Hq|].
  specialize (body_ok l w Hi). unfold wp in body_ok.
  destruct (body l w) as [[l'|r|] w']; cbn in *; auto.
Qed.

(** The same, with the invariant still there when the fuel runs out. *)
Lemma loop_wp_running fuel : forall l w,
  I l w -> (forall l' w', I l' w' -> Q OutOfFuel w') ->
  Q (loop body fuel l w).1 (loop body fuel l w).2.
Proof.
  induction fuel as [|fuel IH]; intros l w Hi Hq; cbn; [by eapply Hq|].
  specialize (body_ok l w Hi). unfold wp in body_ok.
  destruct (body l w) as [[l'|r|] w']; cbn in *; auto.
Qed.

Lemma loop_state_wp n : forall l w l' w',
  I l w -> loop_state body n l w = Some (l', w') -> I l' w'.
Proof.
  induction n as [|n IH]; intros l w l' w' Hi; cbn.
  - intros [= <- <-]. exact Hi.
  - specialize (body_ok l w Hi). unfold wp in body_ok.
    destruct (body l w) as [[l1|r|] w1]; cbn in *; try done.
    by apply IH.
Qed.
End Loops.

(** An iteration that changes nothing repeats for ever. *)
Lemma loop_fixpoint {L} (body : L -> M L) l w :
  body l w = (Val l, w) -> forall fuel, loop body fuel l w = (OutOfFuel, w).
Proof. intros H. induction fuel as [|fuel IH]; cbn; [done|]. by rewrite H. Qed.

Lemma loop_state_fixpoint {L} (body : L -> M L) l w :
  body l w = (Val l, w) -> forall n, loop_state body n l w = Some (l, w).
Proof. intros H. induction n as [|n IH]; cbn; [done|]. by rewrite H. Qed.

(** ** The system call and the allocator on the heap *)

Section Primitives.
Variable mb : Z.

Lemma alloc_grant_heap size w : heap (alloc_grant mb size w).2 = heap w.
Proof. unfold alloc_grant. destruct (alloc_script w); reflexivity. Qed.

Lemma alloc_grant_bound size w : (alloc_grant mb size w).1 = true -> size <= mb.
Proof.
  unfold alloc_grant. destruct (alloc_script w); cbn; intros H.
  - by apply Z.leb_le.
  - apply andb_true_iff in H as [_ H]. by apply Z.leb_le.
Qed.

Lemma wp_malloc size w :
  heap w = ∅ ->
  wp (malloc mb size) w (fun r w' =>
    match r with
    | Val (Some p) =>
        heap w' = {[p := replicate (Z.to_nat size) None]} /\ size <= mb
    | Val None => heap w' = ∅
    | _ => False
    end).
Proof.
  intros Hh. unfold wp, malloc.
  pose proof (alloc_grant_heap size w) as Hg.
  pose proof (alloc_grant_bound size w) as Hb.
  destruct (alloc_grant mb size w) as [[] w1]; cbn in *.
  - split; [| auto]. rewrite Hg, Hh. apply insert_empty.
  - congruence.
Qed.

Lemma wp_realloc p size w cells :
  heap w = {[p := cells]} ->
  wp (realloc mb p size) w (fun r w' =>
    match r with
    | Val (Some q) =>
        heap w' = {[q := resize (Z.to_nat size) None cells]} /\ size <= mb
    | Val None => heap w' = {[p := cells]}
    | _ => False
    end).
Proof.
  intros Hh. unfold wp, realloc. rewrite Hh, lookup_singleton_eq.
  pose proof (alloc_grant_heap size w) as Hg.
  pose proof (alloc_grant_bound size w) as Hb.
  destruct (alloc_grant mb size w) as [[] w1]; cbn in *.
  - split; [| auto]. rewrite Hg, Hh, delete_singleton_eq. apply insert_empty.
  - congruence.
Qed.

Lemma wp_free p w cells :
  heap w = {[p := cells]} ->
  wp (free p) w (fun r w' => r = Val tt /\ heap w' = ∅).
Proof.
  intros Hh. unfold wp, free. rewrite Hh, lookup_singleton_eq. cbn.
  split; [done|]. apply delete_singleton_eq.
Qed.

Lemma wp_store p i c w cells :
  heap w = {[p := cells]} ->
  wp (store p i c) w (fun r w' =>
    match r with
    | Val _ => 0 <= i < Z.of_nat (length cells) /\
               heap w' = {[p := <[Z.to_nat i := Some c]> cells]}
    | Fault => ~ (0 <= i < Z.of_nat (length cells)) /\ heap w' = heap w
    | Return _ => False
    end).
Proof.
  intros Hh. unfold wp, store. rewrite Hh, lookup_singleton_eq.
  destruct (Z.leb_spec 0 i), (Z.ltb_spec i (Z.of_nat (length cells))); cbn;
    try (split; [lia | done]).
  split; [lia|]. apply insert_singleton_eq.
Qed.

Lemma wp_store_bytes p off bs w cells :
  heap w = {[p := cells]} ->
  wp (store_bytes p off bs) w (fun r w' =>
    match r with
    | Val _ =>
        0 <= off /\ off + Z.of_nat (length bs) <= Z.of_nat (length cells) /\
        heap w' = {[p := list_inserts (Z.to_nat off) (Some <$> bs) cells]}
    | Fault =>
        ~ (0 <= off /\ off + Z.of_nat (length bs) <= Z.of_nat (length cells))
        /\ heap w' = heap w
    | Return _ => False
    end).
Proof.
  intros Hh. unfold wp, store_bytes. rewrite Hh, lookup_singleton_eq.
  destruct (Z.leb_spec 0 off),
    (Z.leb_spec (off + Z.of_nat (length bs)) (Z.of_nat (length cells))); cbn;
    try (split; [lia | done]).
  split; [lia|]. split; [lia|]. apply insert_singleton_eq.
Qed.

Lemma wp_uninit_char w :
  wp uninit_char w (fun r w' => w' = w /\ exists c, r = Val c).
Proof. unfold wp, uninit_char. cbn. eauto. Qed.

Lemma wp_load p i w cells :
  heap w = {[p := cells]} ->
  wp (load p i) w (fun r w' =>
    w' = w /\
    match r with
    | Val c => 0 <= i < Z.of_nat (length cells)
    | Fault => ~ (0 <= i < Z.of_nat (length cells))
    | Return _ => False
    end).
Proof.
  intros Hh. unfold wp, load. rewrite Hh, lookup_singleton_eq.
  destruct (Z.leb_spec 0 i), (Z.ltb_spec i (Z.of_nat (length cells))); cbn;
    try (split; [done | lia]).
  unfold uninit_char.
  destruct (cells !! Z.to_nat i) as [[c|]|]; cbn; (split; [done | lia]).
Qed.

Lemma sys_read_heap size w : heap (sys_read size w).2 = heap w.
Proof. unfold sys_read. destruct (rd_script w) as [|[|k] rs]; reflexivity. Qed.

(** The contract of the raw read: never more than was asked for. *)
Lemma sys_read_length size w bs :
  0 <= size -> (sys_read size w).1 = Some bs -> Z.of_nat (length bs) <= size.
Proof.
  unfold sys_read. intros Hs.
  destruct (rd_script w) as [|[|k] rs]; cbn; intros [= <-];
    rewrite length_take; lia.
Qed.

(** A read into a local leaves the heap alone. *)
Lemma wp_fread_line_stack size w :
  wp (fread_line OnStack size) w (fun r w' =>
    heap w' = heap w /\
    match r with
    | Val (n, bs) => n = -1 \/ n = Z.of_nat (length bs)
    | _ => False
    end).
Proof.
  unfold wp, fread_line. pose proof (sys_read_heap size w) as Hh.
  destruct (sys_read size w) as [[bs|] w1]; cbn in *; auto.
Qed.

(** A read into the block puts the bytes at the offset; it can only go
    outside the block if the request itself does. *)
Lemma wp_fread_line_block p off size w cells :
  heap w = {[p := cells]} -> 0 <= size ->
  wp (fread_line (InBlock p off) size) w (fun r w' =>
    match r with
    | Val (n, bs) =>
        (n = -1 /\ heap w' = heap w) \/
        (n = Z.of_nat (length bs) /\ n <= size /\ 0 <= off /\
         off + n <= Z.of_nat (length cells) /\
         heap w' = {[p := list_inserts (Z.to_nat off) (Some <$> bs) cells]})
    | Fault => ~ (0 <= off /\ off + size <= Z.of_nat (length cells))
    | Return _ => False
    end).
Proof.
  intros Hh Hs. unfold wp, fread_line.
  pose proof (sys_read_heap size w) as Hh1.
  pose proof (sys_read_length size w) as Hl.
  destruct (sys_read size w) as [[bs|] w1]; cbn in *; [| by left].
  specialize (Hl bs Hs eq_refl).
  set (w2 := log _ w1).
  assert (Hh2 : heap w2 = {[p := cells]}) by (subst w2; cbn; congruence).
  pose proof (wp_store_bytes p off bs w2 cells Hh2) as Hst.
  unfold wp, bind in *.
  destruct (store_bytes p off bs w2) as [[[]|r|] w3]; cbn in *.
  - right. intuition lia.
  - done.
  - intros [? ?]. apply (proj1 Hst). lia.
Qed.

(** *** The same steps as equations, on a world with nothing scripted *)

Lemma malloc_granted size si rs ind np tr :
  size <= mb ->
  malloc mb size (mkWorld si rs [] ind ∅ np tr) =
  (Val (Some np),
   mkWorld si rs [] ind {[np := replicate (Z.to_nat size) None]} (S np)
     (tr ++ [EvMalloc size (Some np)])).
Proof.
  intros H. unfold malloc, alloc_grant. cbn.
  destruct (Z.leb_spec size mb); [|lia]. cbn. by rewrite insert_empty.
Qed.

Lemma realloc_granted p size si rs ind cells np tr :
  size <= mb ->
  realloc mb p size (mkWorld si rs [] ind {[p := cells]} np tr) =
  (Val (Some np),
   mkWorld si rs [] ind {[np := resize (Z.to_nat size) None cells]} (S np)
     (tr ++ [EvRealloc p size (Some np)])).
Proof.
  intros H. unfold realloc, alloc_grant. cbn. rewrite lookup_singleton_eq.
  destruct (Z.leb_spec size mb); [|lia]. cbn.
  by rewrite delete_singleton_eq, insert_empty.
Qed.

End Primitives.

Lemma store_inside p i c si rs al ind cells np tr :
  0 <= i < Z.of_nat (length cells) ->
  store p i c (mkWorld si rs al ind {[p := cells]} np tr) =
  (Val tt, mkWorld si rs al ind {[p := <[Z.to_nat i := Some c]> cells]} np tr).
Proof.
  intros H. unfold store. cbn. rewrite lookup_singleton_eq.
  destruct (Z.leb_spec 0 i), (Z.ltb_spec i (Z.of_nat (length cells))); try lia.
  cbn. by rewrite insert_singleton_eq.
Qed.

Lemma store_bytes_inside p off bs si rs al ind cells np tr :
  0 <= off -> off + Z.of_nat (length bs) <= Z.of_nat (length cells) ->
  store_bytes p off bs (mkWorld si rs al ind {[p := cells]} np tr) =
  (Val tt,
   mkWorld si rs al ind
     {[p := list_inserts (Z.to_nat off) (Some <$> bs) cells]} np tr).
Proof.
  intros H1 H2. unfold store_bytes. cbn. rewrite lookup_singleton_eq.
  destruct (Z.leb_spec 0 off),
    (Z.leb_spec (off + Z.of_nat (length bs)) (Z.of_nat (length cells)));
    try lia.
  cbn. by rewrite insert_singleton_eq.
Qed.

Lemma load_inside p i c si rs al ind cells np tr :
  0 <= i -> cells !! Z.to_nat i = Some (Some c) ->
  load p i (mkWorld si rs al ind {[p := cells]} np tr) =
  (Val c, mkWorld si rs al ind {[p := cells]} np tr).
Proof.
  intros H1 H2. unfold load. cbn. rewrite lookup_singleton_eq.
  apply lookup_lt_Some in H2 as Hlt.
  destruct (Z.leb_spec 0 i), (Z.ltb_spec i (Z.of_nat (length cells))); try lia.
  cbn. by rewrite H2.
Qed.

Lemma fread_line_one b s al ind h np tr :
  fread_line OnStack 1 (mkWorld (b :: s) [] al ind h np tr) =
  (Val (1, [b]), mkWorld s [] al ind h np (tr ++ [EvRead OnStack 1 1])).
Proof.
  unfold fread_line, sys_read. cbn [stdin rd_script].
  replace (Z.to_nat (Z.min 1 (Z.of_nat (length (b :: s))))) with 1%nat
    by (cbn [length]; lia).
  reflexivity.
Qed.

(** The read only looks at the stream and its script, and only changes
    those. *)
Lemma sys_read_frame size si rs al ind h np tr :
  exists si' rs',
    sys_read size (mkWorld si rs al ind h np tr) =
    ((sys_read size (mkWorld si rs al ind h np tr)).1,
     mkWorld si' rs' al ind h np tr).
Proof. unfold sys_read. destruct rs as [|[|k] rs]; cbn; by eexists _, _. Qed.

Lemma sys_read_input size si rs al ind h np tr al' ind' h' np' tr' :
  (sys_read size (mkWorld si rs al ind h np tr)).1 =
  (sys_read size (mkWorld si rs al' ind' h' np' tr')).1.
Proof. unfold sys_read. destruct rs as [|[|k] rs]; reflexivity. Qed.

Lemma sys_read_transport size si rs al ind h np tr r si' rs' al2 ind2 h2 np2 tr2 :
  sys_read size (mkWorld si rs al ind h np tr)
  = (r, mkWorld si' rs' al ind h np tr) ->
  sys_read size (mkWorld si rs al2 ind2 h2 np2 tr2)
  = (r, mkWorld si' rs' al2 ind2 h2 np2 tr2).
Proof.
  unfold sys_read. destruct rs as [|[|k] rs]; cbn; intros [= <- <- <-]; done.
Qed.

Lemma sys_read_all size si al ind h np tr :
  0 <= size <= Z.of_nat (length si) ->
  sys_read size (mkWorld si [] al ind h np tr) =
  (Some (take (Z.to_nat size) si),
   mkWorld (drop (Z.to_nat size) si) [] al ind h np tr).
Proof.
  intros H. unfold sys_read. cbn [stdin rd_script set_stdin].
  by rewrite Z.min_l by lia.
Qed.

(** ** Ownership of the buffer along both loops *)

Section Ownership.
Variables (C : Z) (sg : bool) (mb : Z).

Lemma wp_grow_when_full l w cells :
  heap w = {[l_buffer l := cells]} ->
  wp (grow_when_full C mb l) w (fun r w' =>
    match r with
    | Val l' =>
        l_length l' = l_length l /\
        ((l_written l <> C /\ l' = l /\ heap w' = heap w) \/
         (l_written l = C /\ l_written l' = 0 /\
          size_t (1 * (C + l_length l + 1)) <= mb /\
          heap w' = {[l_buffer l' :=
                        resize (Z.to_nat (size_t (1 * (C + l_length l + 1))))
                          None cells]}))
    | Return None => heap w' = ∅
    | _ => False
    end).
Proof.
  intros Hh. unfold grow_when_full.
  destruct (Z.eqb_spec (l_written l) C) as [Ew|Ew].
  - apply wp_bind. eapply wp_mono; [by apply wp_realloc|].
    intros [[q|]|r|] w1 H; try done.
    + destruct H as [H1 H2]. apply wp_pure. cbn. split; [done|]. right. done.
    + apply wp_bind. eapply wp_mono; [by eapply wp_free|].
      intros r w2 [-> H2]. by apply wp_ret_fn.
  - apply wp_pure. split; [done|]. left. done.
Qed.

(** [free(buffer); return NULL;] leaves nothing behind. *)
Lemma wp_fail_path l w (Q : flow locals -> World -> Prop) :
  owns l w ->
  (forall w', heap w' = ∅ -> Q (Return None) w') ->
  wp (free (l_buffer l) ;;; ret_fn None) w Q.
Proof.
  intros [cells Hh] HQ. apply wp_bind. eapply wp_mono; [by eapply wp_free|].
  intros r w' [-> H]. apply wp_ret_fn. auto.
Qed.

Lemma wp_store_owned l i c w (k : M locals) (Q : flow locals -> World -> Prop) :
  owns l w ->
  (forall w', owns l w' -> wp k w' Q) ->
  (forall w', Q Fault w') ->
  wp (store (l_buffer l) i c ;;; k) w Q.
Proof.
  intros [cells Hh] Hk HF. apply wp_bind. eapply wp_mono; [by eapply wp_store|].
  intros [[]|r|] w' H; [| done | apply HF].
  apply Hk. destruct H as [_ H]. by eexists.
Qed.

Lemma grow_when_full_owns l w :
  owns l w -> wp (grow_when_full C mb l) w flow_settled.
Proof.
  intros [cells Hh]. eapply wp_mono; [by apply wp_grow_when_full|].
  intros [l1|[p|]|] w1 H; try done. destruct H as [_ H]. cbn.
  destruct H as [(_ & -> & Hw) | (_ & _ & _ & H)];
    [exists cells; congruence | by eexists].
Qed.

Lemma read_line_body_owns l w :
  owns l w -> wp (read_line_body C sg mb l) w flow_settled.
Proof.
  intros Ho. unfold read_line_body.
  apply wp_bind. eapply wp_mono; [by apply grow_when_full_owns|].
  intros [l1|[p|]|] w1 H; try done. cbn in H.
  apply wp_bind.
  eapply (wp_mono _ _ (fun r w' => flow_settled r w' /\
            match r with Val l' => l_buffer l' = l_buffer l1 | _ => True end)).
  - destruct (l_written l1 =? 0); [| by apply wp_pure].
    apply wp_bind. destruct H as [cells1 Hh1].
    eapply wp_mono; [apply wp_fread_line_block; [done | apply size_t_nonneg]|].
    intros [[n bs]|r|] w2 H2; [| done | done]. cbn [fst snd].
    assert (Ho2 : owns l1 w2).
    { destruct H2 as [[_ H2] | (_ & _ & _ & _ & H2)]; eexists;
        [by rewrite H2 | done]. }
    destruct (_ =? -1); [by apply wp_fail_path|].
    destruct (_ =? 0).
    + apply wp_store_owned; [done | | done].
      intros w5 [c5 H5]. apply wp_ret_fn. split; [|done]. by exists c5.
    + by apply wp_pure.
  - intros [l2|[p|]|] w2 [H2 Hb]; try done. cbn in H2.
    destruct (0 <? l_length l2); [| by apply wp_pure].
    destruct H2 as [cells2 Hh2].
    apply wp_bind. eapply wp_mono; [by eapply wp_load|].
    intros [c|r|] w3 [-> H3]; [| done | done].
    destruct (_ || _); [| apply wp_pure; by eexists].
    apply wp_store_owned; [by eexists | | done].
    intros w5 [c5 H5]. apply wp_ret_fn. by exists c5.
Qed.

Lemma raw_read_line_body_owns l w :
  owns l w -> wp (raw_read_line_body C sg mb l) w flow_settled.
Proof.
  intros Ho. unfold raw_read_line_body.
  apply wp_bind. eapply wp_mono; [by apply grow_when_full_owns|].
  intros [l1|[p|]|] w1 H; try done. cbn in H.
  apply wp_bind. eapply wp_mono; [apply wp_uninit_char|].
  intros r w2 [-> [c0 ->]].
  apply wp_bind. eapply wp_mono; [apply wp_fread_line_stack|].
  intros [[n bs]|r|] w3 [Hh3 H3]; try done. cbn [fst snd].
  assert (Ho3 : owns l1 w3).
  { destruct H as [cells1 Hh1]. exists cells1. congruence. }
  destruct (n =? -1); [by apply wp_fail_path|].
  destruct (_ || _).
  - apply wp_store_owned; [done | | done].
    intros w5 [c5 H5]. apply wp_ret_fn. by exists c5.
  - apply wp_store_owned; [done | | done].
    intros w5 H5. by apply wp_pure.
Qed.

End Ownership.

(** ** Failures along both loops *)

Lemma failures_log e w :
  failures (log e w) = (failures w + if is_failure e then 1 else 0)%nat.
Proof.
  unfold failures, log. cbn [trace].
  rewrite List.filter_app, length_app. cbn [List.filter].
  by destruct (is_failure e).
Qed.

Lemma failures_set_heap h n w : failures (set_heap h n w) = failures w.
Proof. reflexivity. Qed.

Lemma failures_set_stdin s rs w : failures (set_stdin s rs w) = failures w.
Proof. reflexivity. Qed.

Lemma failures_set_alloc_script a w :
  failures (set_alloc_script a w) = failures w.
Proof. reflexivity. Qed.

Ltac count_failures :=
  repeat first [rewrite failures_log | rewrite failures_set_heap
               | rewrite failures_set_stdin
               | rewrite failures_set_alloc_script];
  cbn [is_failure]; try lia.

Section Failures.
Variables (C : Z) (sg : bool) (mb : Z).

Lemma alloc_grant_failures size w :
  failures (alloc_grant mb size w).2 = failures w.
Proof. unfold alloc_grant. by destruct (alloc_script w). Qed.

(** A failed [malloc] is counted, a granted one is not. *)
Lemma wp_malloc_failures size w :
  wp (malloc mb size) w (fun r w' =>
    match r with
    | Val (Some _) => failures w' = failures w
    | Val None => failures w' = S (failures w)
    | _ => False
    end).
Proof.
  unfold wp, malloc. pose proof (alloc_grant_failures size w) as H.
  destruct (alloc_grant mb size w) as [[] w1]; cbn [fst snd] in *;
    count_failures.
Qed.

Lemma wp_realloc_failures p size w :
  wp (realloc mb p size) w (fun r w' =>
    match r with
    | Val None => failures w' = S (failures w)
    | _ => failures w' = failures w
    end).
Proof.
  unfold wp, realloc. destruct (heap w !! p); [|done].
  pose proof (alloc_grant_failures size w) as H.
  destruct (alloc_grant mb size w) as [[] w1]; cbn [fst snd] in *;
    count_failures.
Qed.

Lemma wp_free_failures p w :
  wp (free p) w (fun _ w' => failures w' = failures w).
Proof.
  unfold wp.
  unfold free. destruct (heap w !! p); [|done]. cbn [fst snd]. count_failures.
Qed.

Lemma wp_store_failures p i c w :
  wp (store p i c) w (fun _ w' => failures w' = failures w).
Proof. unfold wp, store. by repeat case_match. Qed.

Lemma wp_load_failures p i w :
  wp (load p i) w (fun _ w' => failures w' = failures w).
Proof. unfold wp, load, uninit_char. by repeat case_match. Qed.

(** A read that returns -1 is counted, any other is not. *)
Lemma wp_fread_line_failures a size w :
  wp (fread_line a size) w (fun r w' =>
    match r with
    | Val (n, _) => failures w' = if n =? -1 then S (failures w) else failures w
    | _ => failures w' = failures w
    end).
Proof.
  unfold wp, fread_line.
  assert (Hs : failures (sys_read size w).2 = failures w)
    by (unfold sys_read; by destruct (rd_script w) as [|[|k] rs]).
  destruct (sys_read size w) as [[bs|] w1]; cbn [fst snd] in *.
  - assert (Hn : (Z.of_nat (length bs) =? -1) = false)
      by (apply Z.eqb_neq; lia).
    destruct a as [p off|]; cbn [fst snd].
    + unfold bind, store_bytes, pure.
      repeat case_match; simplify_eq/=; count_failures; rewrite ?Hn; lia.
    + count_failures. rewrite !Hn. lia.
  - change (-1 =? -1) with true. cbv iota. count_failures.
    change (-1 =? -1) with true. cbv iota. lia.
Qed.

(** [free(buffer); return NULL;] after a failure. *)
Lemma wp_fail_path_counted l w f (Q : flow locals -> World -> Prop) :
  owns l w -> failures w = f ->
  (forall w', heap w' = ∅ -> failures w' = f -> Q (Return None) w') ->
  wp (free (l_buffer l) ;;; ret_fn None) w Q.
Proof.
  intros [cells Hh] Hf HQ. apply wp_bind.
  eapply wp_mono;
    [apply wp_conj; [by eapply wp_free | apply wp_free_failures]|].
  intros r w' [[-> H] Hf']. apply wp_ret_fn. apply HQ; congruence.
Qed.

Lemma wp_store_counted l i c w f (k : M locals)
    (Q : flow locals -> World -> Prop) :
  owns l w -> failures w = f ->
  (forall w', owns l w' -> failures w' = f -> wp k w' Q) ->
  (forall w', failures w' = f -> Q Fault w') ->
  wp (store (l_buffer l) i c ;;; k) w Q.
Proof.
  intros [cells Hh] Hf Hk HF. apply wp_bind.
  eapply wp_mono;
    [apply wp_conj; [by eapply wp_store | apply wp_store_failures]|].
  intros [[]|r|] w' [H Hf']; [| done | apply HF; congruence].
  apply Hk; [|congruence]. destruct H as [_ H]. by eexists.
Qed.

(** The loop head: a failed [realloc] makes it return NULL with the block
    freed; otherwise nothing failed. *)
Lemma grow_when_full_fails l w :
  owns l w ->
  wp (grow_when_full C mb l) w (fun r w' =>
    flow_settled r w' /\ failing w r w').
Proof.
  intros Ho. apply wp_conj; [by apply grow_when_full_owns|].
  destruct Ho as [cells Hh]. unfold grow_when_full.
  destruct (l_written l =? C); [| by apply wp_pure].
  apply wp_bind.
  eapply wp_mono;
    [apply wp_conj; [by eapply wp_realloc | apply wp_realloc_failures]|].
  intros [[q|]|r|] w1 [H Hf]; try done.
  apply wp_bind.
  eapply wp_mono;
    [apply wp_conj; [by eapply wp_free | apply wp_free_failures]|].
  intros r w2 [[-> _] Hf2]. apply wp_ret_fn. cbn. congruence.
Qed.

(** One iteration of [read_line]: it returns NULL exactly when its
    reallocation or its read failed, and then with the block freed. *)
Lemma read_line_body_fails l w :
  owns l w ->
  wp (read_line_body C sg mb l) w (fun r w' =>
    flow_settled r w' /\ failing w r w').
Proof.
  intros Ho. unfold read_line_body.
  apply wp_bind. eapply wp_mono; [by apply grow_when_full_fails|].
  intros [l1|[p|]|] w1 [H Hf]; try done. cbn in H, Hf.
  apply wp_bind.
  eapply (wp_mono _ _ (fun r w' => flow_settled r w' /\ failing w r w')).
  - destruct (l_written l1 =? 0); [| by apply wp_pure].
    apply wp_bind. destruct H as [cells1 Hh1].
    eapply wp_mono;
      [apply wp_conj;
       [apply wp_fread_line_block; [done | apply size_t_nonneg]
       | apply wp_fread_line_failures]|].
    intros [[n bs]|r|] w2 [H2 Hf2]; [| done | split; [done | cbn; congruence]].
    cbn [fst snd].
    assert (Ho2 : owns l1 w2).
    { destruct H2 as [[_ H2] | (_ & _ & _ & _ & H2)]; eexists;
        [by rewrite H2 | done]. }
    destruct (n =? -1).
    { eapply wp_fail_path_counted; [done | reflexivity |].
      intros w3 Hh3 Hf3. split; [done|]. cbn. congruence. }
    assert (Hf2' : failures w2 = failures w) by congruence.
    destruct (_ =? 0).
    + eapply wp_store_counted; [done | reflexivity | |].
      * intros w5 [c5 H5] Hf5. apply wp_ret_fn.
        split; [by exists c5 | cbn; congruence].
      * intros w5 Hf5. split; [done | cbn; congruence].
    + by apply wp_pure.
  - intros [l2|[p|]|] w2 [H2 Hf2]; try done. cbn in H2, Hf2.
    destruct (0 <? l_length l2); [| by apply wp_pure].
    destruct H2 as [cells2 Hh2].
    apply wp_bind.
    eapply wp_mono;
      [apply wp_conj; [by eapply wp_load | apply wp_load_failures]|].
    intros [c|r|] w3 [[-> H3] Hf3]; [| done | split; [done | cbn; congruence]].
    destruct (_ || _); [| apply wp_pure; split; [by eexists | cbn; congruence]].
    eapply wp_store_counted; [by eexists | reflexivity | |].
    + intros w5 [c5 H5] Hf5. apply wp_ret_fn.
      split; [by exists c5 | cbn; congruence].
    + intros w5 Hf5. split; [done | cbn; congruence].
Qed.

(** One iteration of [raw_read_line], likewise. *)
Lemma raw_read_line_body_fails l w :
  owns l w ->
  wp (raw_read_line_body C sg mb l) w (fun r w' =>
    flow_settled r w' /\ failing w r w').
Proof.
  intros Ho. unfold raw_read_line_body.
  apply wp_bind. eapply wp_mono; [by apply grow_when_full_fails|].
  intros [l1|[p|]|] w1 [H Hf]; try done. cbn in H, Hf.
  apply wp_bind. eapply wp_mono; [apply wp_uninit_char|].
  intros r w2 [-> [c0 ->]].
  apply wp_bind.
  eapply wp_mono;
    [apply wp_conj; [apply wp_fread_line_stack | apply wp_fread_line_failures]|].
  intros [[n bs]|r|] w3 [[Hh3 H3] Hf3]; try done. cbn [fst snd].
  assert (Ho3 : owns l1 w3).
  { destruct H as [cells1 Hh1]. exists cells1. congruence. }
  destruct (n =? -1).
  { eapply wp_fail_path_counted; [done | reflexivity |].
    intros w4 Hh4 Hf4. split; [done|]. cbn. congruence. }
  assert (Hf3' : failures w3 = failures w) by congruence.
  destruct (_ || _).
  - eapply wp_store_counted; [done | reflexivity | |].
    + intros w5 [c5 H5] Hf5. apply wp_ret_fn.
      split; [by exists c5 | cbn; congruence].
    + intros w5 Hf5. split; [done | cbn; congruence].
  - eapply wp_store_counted; [done | reflexivity | |].
    + intros w5 H5 Hf5. apply wp_pure. split; [done | cbn; congruence].
    + intros w5 Hf5. split; [done | cbn; congruence].
Qed.

End Failures.

(** A loop whose every iteration returns NULL exactly after a failure does
    so as a whole. *)
Lemma loop_fails_cleanly (body : locals -> M locals) fuel l w :
  (forall l w, owns l w ->
     wp (body l) w (fun r w' => flow_settled r w' /\ failing w r w')) ->
  owns l w ->
  settled (loop body fuel l w).1 (loop body fuel l w).2 /\
  failures (loop body fuel l w).2 =
    match (loop body fuel l w).1 with
    | Returned None => S (failures w)
    | _ => failures w
    end.
Proof.
  intros Hbody Ho.
  apply (loop_wp_running body
           (fun l' w' => owns l' w' /\ failures w' = failures w)
           (fun o w' => settled o w' /\
              failures w' = match o with
                            | Returned None => S (failures w)
                            | _ => failures w
                            end)); [| done | by intros l' w' [_ ->]].
  intros l1 w1 [Ho1 Hf1]. eapply wp_mono; [by apply Hbody|].
  intros [l2|[p|]|] w2 [H2 Hf2]; cbn in *; split; congruence.
Qed.

(** ** Capacity along both loops *)

Section Capacity.
Variables (C : Z) (sg : bool) (mb : Z).
Hypothesis HC : 0 < C.
Hypothesis Hmb : C + mb < 2 ^ 64.

Lemma read_line_body_safe l w :
  read_line_inv C mb l w ->
  wp (read_line_body C sg mb l) w (fun r w' =>
    match r with
    | Val l' => read_line_inv C mb l' w'
    | Return r' => safe (Returned r') w'
    | Fault => False
    end).
Proof.
  intros (cells & Hh & Hcap & Hlen). unfold read_line_body.
  apply wp_bind. eapply wp_mono; [by apply wp_grow_when_full|].
  intros [l1|[p|]|] w1 H; try done.
  destruct H as [Hl1 Hg].
  assert (exists cells1, heap w1 = {[l_buffer l1 := cells1]} /\
            C + 1 <= Z.of_nat (length cells1) <= mb) as (cells1 & Hh1 & Hcap1).
  { destruct Hg as [(_ & -> & ->) | (_ & _ & Hfit & ->)]; [by eauto|].
    eexists; split; [done|]. rewrite length_resize.
    rewrite Z.mul_1_l, size_t_small in * by lia. lia. }
  clear Hg Hh Hcap cells. rewrite <- Hl1 in Hlen. clear Hl1.
  apply wp_bind.
  eapply (wp_mono _ _ (fun r w' =>
            match r with
            | Val l' => read_line_inv C mb l' w' /\ l_buffer l' = l_buffer l1
            | Return r' => safe (Returned r') w'
            | Fault => False
            end)).
  - destruct (l_written l1 =? 0).
    + apply wp_bind. rewrite size_t_small by lia.
      eapply wp_mono; [apply wp_fread_line_block; [done | lia]|].
      intros [[n bs]|r|] w2 H; [| done | apply H; lia].
      cbn [fst snd].
      destruct H as [[-> Hh2] | (Hn & Hn1 & _ & Hfit & Hh2)].
      * cbn. apply wp_bind. eapply wp_mono; [eapply wp_free; by rewrite Hh2|].
        intros r w3 [-> H3]. by apply wp_ret_fn.
      * destruct (Z.eqb_spec n (-1)); [lia|].
        assert (Hl2 : length (list_inserts (Z.to_nat (l_length l1))
                                (Some <$> bs) cells1) = length cells1)
          by apply length_inserts.
        destruct (Z.eqb_spec n 0).
        -- apply wp_bind. eapply wp_mono; [by eapply wp_store|].
           intros [[]|r|] w3 H;
             [| done | rewrite Hl2 in H; apply (proj1 H); lia].
           apply wp_ret_fn. destruct H as [_ H]. cbn. eauto.
        -- apply wp_pure. split; [|done]. eexists; split; [done|].
           cbn. rewrite Hl2. rewrite !size_t_small by lia. lia.
    + apply wp_pure. split; [|done]. exists cells1. done.
  - intros [l2|[p|]|] w2 H; try done.
    destruct H as [(cells2 & Hh2 & Hcap2 & Hlen2) Hb].
    destruct (Z.ltb_spec 0 (l_length l2)); [| apply wp_pure; eexists; eauto].
    apply wp_bind. eapply wp_mono; [by eapply wp_load|].
    intros [c|r|] w3 [-> H3]; [| done | lia].
    destruct (_ || _).
    + apply wp_bind. eapply wp_mono; [by eapply wp_store|].
      intros [[]|r|] w4 H4; [| done | apply (proj1 H4); lia].
      apply wp_ret_fn. destruct H4 as [_ H4]. cbn. eauto.
    + apply wp_pure. eexists; eauto.
Qed.

Lemma raw_read_line_body_safe l w :
  raw_read_line_inv C mb l w ->
  wp (raw_read_line_body C sg mb l) w (fun r w' =>
    match r with
    | Val l' => raw_read_line_inv C mb l' w'
    | Return r' => safe (Returned r') w'
    | Fault => False
    end).
Proof.
  intros (cells & Hh & Hmax & Hwr & Hlen & Hcap). unfold raw_read_line_body.
  apply wp_bind. eapply wp_mono; [by apply wp_grow_when_full|].
  intros [l1|[p|]|] w1 H; try done.
  destruct H as [Hl1 Hg].
  assert (exists cells1, heap w1 = {[l_buffer l1 := cells1]} /\
            Z.of_nat (length cells1) <= mb /\ 0 <= l_written l1 < C /\
            Z.of_nat (length cells1) = l_length l1 - l_written l1 + C + 1)
    as (cells1 & Hh1 & Hmax1 & Hwr1 & Hcap1).
  { destruct Hg as [(Hne & -> & ->) | (He & Hw0 & Hfit & ->)].
    - exists cells. repeat split; try done; lia.
    - eexists; split; [done|]. rewrite length_resize, Hw0, Hl1.
      rewrite Z.mul_1_l, size_t_small in * by lia. lia. }
  rewrite <- Hl1 in Hlen. clear Hg Hh Hcap Hmax Hwr Hl1 cells.
  apply wp_bind. eapply wp_mono; [apply wp_uninit_char|].
  intros r w2 [-> [c0 ->]].
  apply wp_bind. eapply wp_mono; [apply wp_fread_line_stack|].
  intros [[n bs]|r|] w3 [Hh3 H3]; try done. cbn [fst snd].
  rewrite Hh1 in Hh3.
  destruct (n =? -1).
  { apply wp_fail_path; [by eexists | done]. }
  destruct (_ || _).
  - apply wp_bind. eapply wp_mono; [by eapply wp_store|].
    intros [[]|r|] w4 H4; [| done | apply (proj1 H4); lia].
    apply wp_ret_fn. destruct H4 as [_ H4]. cbn. eauto.
  - apply wp_bind. eapply wp_mono; [by eapply wp_store|].
    intros [[]|r|] w4 H4; [| done | apply (proj1 H4); lia].
    apply wp_pure. destruct H4 as [_ H4]. eexists; split; [done|].
    cbn. rewrite length_insert, !size_t_small by lia. lia.
Qed.

End Capacity.

(** ** [raw_read_line] byte by byte *)

Section RawSteps.
Variables (C : Z) (sg : bool) (mb : Z).
Hypothesis HC : 0 < C.
Hypothesis Hmb : mb < 2 ^ 64.

Lemma filled_length stored cap :
  Z.of_nat (length stored) <= cap -> Z.of_nat (length (filled stored cap)) = cap.
Proof.
  intros H. unfold filled.
  rewrite length_app, length_fmap, length_replicate. lia.
Qed.

Lemma filled_resize stored cap cap' :
  Z.of_nat (length stored) <= cap <= cap' ->
  resize (Z.to_nat cap') None (filled stored cap) = filled stored cap'.
Proof.
  intros H. unfold filled.
  rewrite resize_app_ge by (rewrite length_fmap; lia).
  rewrite length_fmap. f_equal.
  rewrite resize_ge by (rewrite length_replicate; lia).
  rewrite length_replicate, <- replicate_add. f_equal. lia.
Qed.

Lemma filled_store stored cap c :
  Z.of_nat (length stored) < cap ->
  <[Z.to_nat (Z.of_nat (length stored)) := Some c]> (filled stored cap)
  = (Some <$> stored) ++
    Some c :: replicate (Z.to_nat cap - length stored - 1) None.
Proof.
  intros H. unfold filled. rewrite Nat2Z.id.
  rewrite insert_app_r_alt by (rewrite length_fmap; lia).
  rewrite length_fmap, Nat.sub_diag.
  destruct (Z.to_nat cap - length stored)%nat as [|k] eqn:E; [lia|].
  cbn. by rewrite Nat.sub_0_r.
Qed.

Lemma filled_snoc stored cap c :
  Z.of_nat (length stored) < cap ->
  <[Z.to_nat (Z.of_nat (length stored)) := Some c]> (filled stored cap)
  = filled (stored ++ [c]) cap.
Proof.
  intros H. rewrite filled_store by done. unfold filled.
  rewrite fmap_app, <- app_assoc, length_app. cbn. do 3 f_equal. lia.
Qed.

(** A byte that does not stop the loop is appended. *)
Lemma raw_body_keep stored b s ind p wr np tr :
  ~ stops sg b -> 0 <= wr <= C ->
  C + Z.of_nat (length stored) + 1 <= mb ->
  exists q wr' np' tr',
    raw_read_line_body C sg mb (raw_state C stored (b :: s) ind p wr np tr).1
      (raw_state C stored (b :: s) ind p wr np tr).2
    = (Val (raw_state C (stored ++ [b]) s ind q wr' np' tr').1,
       (raw_state C (stored ++ [b]) s ind q wr' np' tr').2) /\
    0 <= wr' <= C.
Proof.
  intros Hb Hwr Hfit. unfold raw_state. cbn [fst snd].
  unfold raw_read_line_body, grow_when_full, bind.
  cbn [l_written l_length l_buffer].
  destruct (Z.eqb_spec wr C) as [->|Hne].
  - rewrite Z.mul_1_l, size_t_small by lia.
    rewrite realloc_granted by lia. cbn [pure uninit_char].
    rewrite fread_line_one. cbn [fst snd l_buffer l_length l_written].
    rewrite stop_test_false by done.
    change (1 =? -1) with false. cbv beta iota.
    rewrite filled_resize by lia.
    rewrite store_inside by (rewrite filled_length; lia).
    rewrite filled_snoc by lia. cbn [pure].
    rewrite !size_t_small by lia.
    eexists np, 1, _, _. split; [|lia].
    rewrite length_app, Nat2Z.inj_add. cbn [length]. unfold pure.
    replace (Z.of_nat (length stored) + Z.of_nat 1 - 1 + C + 1)
      with (C + Z.of_nat (length stored) + 1) by lia.
    reflexivity.
  - cbn [pure uninit_char].
    rewrite fread_line_one. cbn [fst snd l_buffer l_length l_written].
    rewrite stop_test_false by done.
    change (1 =? -1) with false. cbv beta iota.
    rewrite store_inside by (rewrite filled_length; lia).
    rewrite filled_snoc by lia. cbn [pure].
    rewrite !size_t_small by lia.
    eexists p, (wr + 1), _, _. split; [|lia].
    rewrite length_app, Nat2Z.inj_add. cbn [length]. unfold pure.
    replace (Z.of_nat (length stored) + Z.of_nat 1 - (wr + 1) + C + 1)
      with (Z.of_nat (length stored) - wr + C + 1) by lia.
    reflexivity.
Qed.

(** A byte that stops the loop is replaced by the terminator. *)
Lemma raw_body_stop stored t s ind p wr np tr :
  stops sg t -> 0 <= wr <= C ->
  C + Z.of_nat (length stored) + 1 <= mb ->
  exists q tail np' tr',
    raw_read_line_body C sg mb (raw_state C stored (t :: s) ind p wr np tr).1
      (raw_state C stored (t :: s) ind p wr np tr).2
    = (Return (Some q),
       mkWorld s [] [] ind {[q := (Some <$> stored) ++ Some x00 :: tail]}
         np' tr').
Proof.
  intros Hb Hwr Hfit. unfold raw_state. cbn [fst snd].
  unfold raw_read_line_body, grow_when_full, bind.
  cbn [l_written l_length l_buffer].
  apply stop_test in Hb.
  destruct (Z.eqb_spec wr C) as [->|Hne].
  - rewrite Z.mul_1_l, size_t_small by lia.
    rewrite realloc_granted by lia. cbn [pure uninit_char].
    rewrite fread_line_one. cbn [fst snd l_buffer l_length l_written].
    rewrite Hb. change (1 =? -1) with false. cbv beta iota.
    rewrite filled_resize by lia.
    rewrite store_inside by (rewrite filled_length; lia).
    rewrite filled_store by lia. unfold ret_fn.
    by eexists _, _, _, _.
  - cbn [pure uninit_char].
    rewrite fread_line_one. cbn [fst snd l_buffer l_length l_written].
    rewrite Hb. change (1 =? -1) with false. cbv beta iota.
    rewrite store_inside by (rewrite filled_length; lia).
    rewrite filled_store by lia. unfold ret_fn.
    by eexists _, _, _, _.
Qed.

Lemma raw_loop_correct t rest ind pre : forall stored p wr np tr fuel,
  Forall (fun c => ~ stops sg c) pre -> stops sg t ->
  0 <= wr <= C ->
  C + Z.of_nat (length stored) + Z.of_nat (length pre) + 1 <= mb ->
  (length pre < fuel)%nat ->
  exists q tail np' tr',
    loop (raw_read_line_body C sg mb) fuel
      (raw_state C stored (pre ++ t :: rest) ind p wr np tr).1
      (raw_state C stored (pre ++ t :: rest) ind p wr np tr).2
    = (Returned (Some q),
       mkWorld rest [] [] ind
         {[q := (Some <$> (stored ++ pre)) ++ Some x00 :: tail]} np' tr').
Proof.
  induction pre as [|b pre IH];
    intros stored p wr np tr fuel Hpre Ht Hwr Hfit Hfuel;
    (destruct fuel as [|fuel]; [cbn in Hfuel; lia|]); cbn [loop app].
  - destruct (raw_body_stop stored t rest ind p wr np tr Ht Hwr)
      as (q & tail & np' & tr' & ->); [lia|].
    rewrite app_nil_r. by eexists _, _, _, _.
  - apply Forall_cons in Hpre as [Hb Hpre].
    destruct (raw_body_keep stored b (pre ++ t :: rest) ind p wr np tr Hb Hwr)
      as (q & wr' & np' & tr' & -> & Hwr'); [cbn [length] in Hfit; lia|].
    destruct (IH (stored ++ [b]) q wr' np' tr' fuel Hpre Ht Hwr')
      as (q2 & tail & np2 & tr2 & ->).
    { rewrite length_app. cbn [length] in *. lia. }
    { cbn [length] in Hfuel. lia. }
    rewrite <- app_assoc. by eexists _, _, _, _.
Qed.

End RawSteps.

(** Once nothing to come can stop it, an iteration of [raw_read_line] never
    returns the buffer: it goes on, or it gives up with NULL. *)
Lemma raw_read_line_body_never_stops C sg mb l w :
  never_stops sg w ->
  match raw_read_line_body C sg mb l w with
  | (Val _, w') => never_stops sg w'
  | (Return (Some _), _) => False
  | _ => True
  end.
Proof.
  destruct w as [si rs al ind h np tr]. intros (Hrs & Hind & Hsi).
  cbn in Hrs, Hind, Hsi. subst rs.
  assert (Hc : forall c0 : byte,
    ((char_to_int sg
        (match take (Z.to_nat (Z.min 1 (Z.of_nat (length si)))) si with
         | [] => c0 | b :: _ => b end) =? 0)
     || (char_to_int sg
           (match take (Z.to_nat (Z.min 1 (Z.of_nat (length si)))) si with
            | [] => c0 | b :: _ => b end) =? EOF)) = true ->
    stops sg c0).
  { intros c0 H. apply stop_test in H. destruct si as [|b s]; [done|].
    replace (Z.to_nat (Z.min 1 (Z.of_nat (length (b :: s))))) with 1%nat in H
      by (cbn [length]; lia).
    cbn in H. apply Forall_cons in Hsi as [Hb _]. done. }
  assert (Hd : forall k, Forall (fun c => ~ stops sg c) (drop k si)).
  { intros k. by apply Forall_drop. }
  unfold never_stops, raw_read_line_body, grow_when_full, bind, realloc, free,
    store, uninit_char, fread_line, sys_read, alloc_grant, pure, ret_fn,
    log, set_heap, set_stdin, set_alloc_script.
  cbn [stdin rd_script alloc_script indet heap next_ptr trace
       l_buffer l_written l_length fst snd].
  repeat (case_match; simplify_eq/=); try done;
    try (exfalso; eapply Hind, Hc; eassumption);
    try (split; [done | split; [done | apply Hd]]); try congruence.
  all: match goal with
       | H1 : ?t = _ :: _, H2 : ?t = _ :: _ |- _ =>
           rewrite H1 in H2; simplify_eq
       end.
  all: exfalso; eapply (Hind 0%nat), Hc; eassumption.
Qed.

Lemma raw_loop_never_returns C sg mb fuel : forall l w,
  never_stops sg w ->
  returned_buffer (loop (raw_read_line_body C sg mb) fuel l w).1 = None.
Proof.
  induction fuel as [|fuel IH]; intros l w Hw; [reflexivity|].
  cbn [loop].
  pose proof (raw_read_line_body_never_stops C sg mb l w Hw) as H.
  destruct (raw_read_line_body C sg mb l w) as [[l'|[p|]|] w']; try done.
  by apply IH.
Qed.

(** ** [read_line] up to its first read *)

Lemma read_line_first_chunk_run C sg mb pre fuel si rs ind np tr :
  0 < C -> C + 1 <= mb -> mb < 2 ^ 64 ->
  Z.of_nat (length pre) < C ->
  (sys_read C (mkWorld si rs [] ind ∅ np tr)).1 = Some (pre ++ [x0a]) ->
  exists si' rs',
    read_line C sg mb (S fuel) (mkWorld si rs [] ind ∅ np tr) =
    (Returned (Some np),
     mkWorld si' rs' [] ind
       {[np := (Some <$> pre) ++ Some x00 ::
                 replicate (Z.to_nat C - length pre) None]} (S np)
       ((tr ++ [EvMalloc (C + 1) (Some np)]) ++
        [EvRead (InBlock np 0) C (Z.of_nat (S (length pre)))])).
Proof.
  intros HC Hfit Hmb Hpre Hrd.
  unfold read_line.
  rewrite Z.mul_1_l, size_t_small by lia.
  rewrite malloc_granted by lia.
  cbn [loop]. unfold read_line_body, grow_when_full, bind. simp.
  destruct (Z.eqb_spec 0 C) as [|_]; [lia|]. simp.
  change (0 =? 0) with true. cbv beta iota.
  rewrite Z.sub_0_r, size_t_small by lia.
  unfold fread_line at 1. cbv beta.
  destruct (sys_read_frame C si rs [] ind
              {[np := replicate (Z.to_nat (C + 1)) None]} (S np)
              (tr ++ [EvMalloc (C + 1) (Some np)])) as (si' & rs' & ->).
  rewrite (sys_read_input C si rs _ _ _ _ _ [] ind ∅ np tr), Hrd.
  unfold bind. simp.
  assert (Hn : length (pre ++ [x0a]) = S (length pre))
    by (rewrite length_app; cbn; lia).
  rewrite store_bytes_inside by (rewrite ?length_replicate, ?Hn; lia).
  simp. rewrite Hn.
  destruct (Z.eqb_spec (Z.of_nat (S (length pre))) (-1)) as [|_]; [lia|].
  destruct (Z.eqb_spec (Z.of_nat (S (length pre))) 0) as [|_]; [lia|].
  simp. rewrite Z.add_0_l, !size_t_small by lia. simp.
  destruct (Z.ltb_spec 0 (Z.of_nat (S (length pre)))) as [_|]; [|lia].
  change (Z.to_nat 0) with 0%nat.
  replace (Z.to_nat (C + 1))
    with (S (length pre) + (Z.to_nat C - length pre))%nat by lia.
  rewrite replicate_add, list_inserts_0_r
    by (rewrite length_fmap, length_replicate; lia).
  rewrite fmap_app, <- app_assoc. cbn [fmap list_fmap app].
  replace (Z.of_nat (S (length pre)) - 1) with (Z.of_nat (length pre)) by lia.
  rewrite (load_inside _ _ x0a)
    by (try lia; rewrite Nat2Z.id; apply list_lookup_middle;
        by rewrite length_fmap).
  replace ((char_to_int sg x0a =? EOF) || (char_to_int sg x0a =? 10)) with true
    by (by destruct sg).
  rewrite store_inside
    by (rewrite length_app, length_fmap; cbn [length]; lia).
  simp. exists si', rs'. do 3 f_equal.
  rewrite Nat2Z.id.
  rewrite insert_app_r_alt by (rewrite length_fmap; lia).
  by rewrite length_fmap, Nat.sub_diag.
Qed.

(** A first iteration that leaves [read_line] in a state the next iteration
    does not change leaves it there for good. *)
Lemma read_line_stuck C sg mb w l1 w1 :
  read_line_state C sg mb 1 w = Some (l1, w1) ->
  read_line_body C sg mb l1 w1 = (Val l1, w1) ->
  (forall fuel, (read_line C sg mb fuel w).1 = OutOfFuel) /\
  (forall n, read_line_state C sg mb (S n) w = Some (l1, w1)).
Proof.
  intros H1 H2. unfold read_line_state, read_line in *.
  destruct (malloc _ _ _) as [[[p|]|r|] w0]; try done.
  cbn [loop_state] in H1.
  split.
  - intros [|fuel]; [done|]. cbn [loop].
    destruct (read_line_body _ _ _ _ _) as [[l'|r|] w2]; try done.
    cbn in H1. injection H1 as -> ->.
    by rewrite (loop_fixpoint _ _ _ H2).
  - intros n. cbn [loop_state].
    destruct (read_line_body _ _ _ _ _) as [[l'|r|] w2]; try done.
    cbn in H1. injection H1 as -> ->.
    by rewrite (loop_state_fixpoint _ _ _ H2).
Qed.

(** ** [read_line] after a first read that does not end the line *)

Section FirstRead.
Variables (C : Z) (sg : bool) (mb : Z).
Hypothesis HC : 0 < C.
Hypothesis Hfit : C + 1 <= mb.
Hypothesis Hmb : mb < 2 ^ 64.

(** The block after the first read has delivered [bs]. *)
Lemma first_read_block (bs : list byte) :
  Z.of_nat (length bs) <= C ->
  list_inserts (Z.to_nat 0) (Some <$> bs) (replicate (Z.to_nat (C + 1)) None)
  = filled bs (C + 1).
Proof.
  intros H. change (Z.to_nat 0) with 0%nat. unfold filled.
  replace (Z.to_nat (C + 1))
    with (length bs + (Z.to_nat (C + 1) - length bs))%nat at 1 by lia.
  rewrite replicate_add, list_inserts_0_r
    by (rewrite length_fmap, length_replicate; lia).
  reflexivity.
Qed.

(** First iteration when the read does not end in a line end: the bytes are
    in the block and the loop goes on with [written = length = n]. *)
Lemma read_line_first_read_continues bs c si rs si' rs' ind np tr :
  Z.of_nat (length (bs ++ [c])) <= C ->
  ~ line_ends sg c ->
  sys_read C (mkWorld si rs [] ind ∅ np tr)
  = (Some (bs ++ [c]), mkWorld si' rs' [] ind ∅ np tr) ->
  read_line_body C sg mb (mkLocals np 0 0)
    (mkWorld si rs [] ind {[np := replicate (Z.to_nat (C + 1)) None]} (S np)
       (tr ++ [EvMalloc (C + 1) (Some np)]))
  = (Val (mkLocals np (Z.of_nat (length (bs ++ [c])))
            (Z.of_nat (length (bs ++ [c])))),
     mkWorld si' rs' [] ind {[np := filled (bs ++ [c]) (C + 1)]} (S np)
       ((tr ++ [EvMalloc (C + 1) (Some np)]) ++
        [EvRead (InBlock np 0) C (Z.of_nat (length (bs ++ [c])))])).
Proof.
  intros Hlen Hc Hrd.
  assert (Hn : length (bs ++ [c]) = S (length bs))
    by (rewrite length_app; cbn; lia).
  unfold read_line_body, grow_when_full, bind. simp.
  destruct (Z.eqb_spec 0 C) as [|_]; [lia|]. simp.
  change (0 =? 0) with true. cbv beta iota.
  rewrite Z.sub_0_r, size_t_small by lia.
  unfold fread_line at 1. cbv beta.
  rewrite (sys_read_transport _ _ _ _ _ _ _ _ _ _ _ _ _ _ _ _ Hrd).
  unfold bind. simp.
  rewrite store_bytes_inside by (rewrite ?length_replicate; lia).
  simp. rewrite first_read_block by lia.
  destruct (Z.eqb_spec (Z.of_nat (length (bs ++ [c]))) (-1)) as [|_]; [lia|].
  destruct (Z.eqb_spec (Z.of_nat (length (bs ++ [c]))) 0) as [|_]; [lia|].
  simp. rewrite Z.add_0_l, !size_t_small by lia. simp.
  destruct (Z.ltb_spec 0 (Z.of_nat (length (bs ++ [c])))) as [_|]; [|lia].
  rewrite (load_inside _ _ c).
  - by rewrite line_end_test_false by done.
  - lia.
  - unfold filled. rewrite fmap_app, <- app_assoc. cbn [fmap list_fmap app].
    apply list_lookup_middle. rewrite length_fmap. lia.
Qed.

(** Any later iteration with the window neither empty nor full and the last
    byte not a line end changes nothing. *)
Lemma read_line_body_idle bs c n si rs al ind p cap np tr :
  n = Z.of_nat (length (bs ++ [c])) -> n < C -> n < cap ->
  ~ line_ends sg c ->
  read_line_body C sg mb (mkLocals p n n)
    (mkWorld si rs al ind {[p := filled (bs ++ [c]) cap]} np tr)
  = (Val (mkLocals p n n),
     mkWorld si rs al ind {[p := filled (bs ++ [c]) cap]} np tr).
Proof.
  intros -> Hn Hcap Hc.
  assert (Hl : length (bs ++ [c]) = S (length bs))
    by (rewrite length_app; cbn; lia).
  unfold read_line_body, grow_when_full, bind. simp.
  destruct (Z.eqb_spec (Z.of_nat (length (bs ++ [c]))) C) as [|_]; [lia|]. simp.
  destruct (Z.eqb_spec (Z.of_nat (length (bs ++ [c]))) 0) as [|_]; [lia|]. simp.
  destruct (Z.ltb_spec 0 (Z.of_nat (length (bs ++ [c])))) as [_|]; [|lia].
  rewrite (load_inside _ _ c).
  - by rewrite line_end_test_false by done.
  - lia.
  - unfold filled. rewrite fmap_app, <- app_assoc. cbn [fmap list_fmap app].
    apply list_lookup_middle. rewrite length_fmap. lia.
Qed.

(** A first read shorter than a chunk that does not end in a line end makes
    [read_line] loop for ever, on any stream and for any behaviour of the
    later reads. *)
Lemma read_line_short_read_never_returns bs c w :
  Z.of_nat (length (bs ++ [c])) < C ->
  ~ line_ends sg c ->
  heap w = ∅ -> alloc_script w = [] ->
  (sys_read C w).1 = Some (bs ++ [c]) ->
  forall fuel, (read_line C sg mb fuel w).1 = OutOfFuel.
Proof.
  intros Hlen Hc Hh Ha Hrd.
  destruct w as [si rs al ind h np tr]. cbn in Hh, Ha. subst.
  destruct (sys_read_frame C si rs [] ind ∅ np tr) as (si' & rs' & Hfr).
  rewrite Hrd in Hfr.
  pose proof (read_line_first_read_continues bs c si rs si' rs' ind np tr
                ltac:(lia) Hc Hfr) as E.
  eapply read_line_stuck.
  - unfold read_line_state.
    rewrite Z.mul_1_l, size_t_small by lia.
    rewrite malloc_granted by lia.
    cbn [loop_state]. rewrite E. reflexivity.
  - apply (read_line_body_idle bs c); [done | lia | lia | done].
Qed.

End FirstRead.

Section Truncation.
Variables (C : Z) (sg : bool) (mb : Z).
Hypothesis HC : 0 < C.
Hypothesis Hfit : 2 * C + 1 <= mb.
Hypothesis Hmb : mb < 2 ^ 64.

(** The iteration that follows a full first chunk: the buffer grows, the
    read asks for [C - C] bytes, gets none, and the function returns. *)
Lemma read_line_body_after_full_chunk bs rest ind p np tr :
  Z.of_nat (length bs) = C ->
  read_line_body C sg mb (mkLocals p C C)
    (mkWorld rest [] [] ind {[p := filled bs (C + 1)]} np tr)
  = (Return (Some np),
     mkWorld rest [] [] ind
       {[np := (Some <$> bs) ++ Some x00 :: replicate (Z.to_nat C) None]}
       (S np)
       ((tr ++ [EvRealloc p (2 * C + 1) (Some np)]) ++
        [EvRead (InBlock np C) 0 0])).
Proof.
  intros Hlen.
  unfold read_line_body, grow_when_full, bind. simp.
  rewrite Z.eqb_refl.
  replace (1 * (C + C + 1)) with (2 * C + 1) by lia.
  rewrite size_t_small by lia.
  rewrite realloc_granted by lia. simp.
  change (0 =? 0) with true. cbv beta iota.
  rewrite Z.sub_diag. change (size_t 0) with 0.
  unfold fread_line at 1. cbv beta.
  rewrite sys_read_all by lia. change (Z.to_nat 0) with 0%nat.
  rewrite take_0, drop_0. unfold bind. simp.
  rewrite filled_resize by lia.
  rewrite store_bytes_inside by (rewrite ?filled_length; cbn [length]; lia).
  simp. cbn [length fmap list_fmap list_inserts].
  change (Z.of_nat 0 =? -1) with false. change (Z.of_nat 0 =? 0) with true.
  change (Z.of_nat 0) with 0. cbv beta iota.
  rewrite store_inside by (rewrite filled_length; lia).
  replace (Z.to_nat C) with (Z.to_nat (Z.of_nat (length bs))) at 1 by lia.
  rewrite filled_store by lia. simp.
  replace (Z.to_nat (2 * C + 1) - length bs - 1)%nat with (Z.to_nat C) by lia.
  reflexivity.
Qed.

(** A line that does not end within the first chunk is cut at the chunk:
    with every read delivering what it is asked for, [read_line] returns the
    first [C] bytes after one reallocation and a read of 0 bytes, and leaves
    the rest on the stream. *)
Lemma read_line_truncates_at_chunk bs c rest fuel w :
  Z.of_nat (length (bs ++ [c])) = C ->
  ~ line_ends sg c ->
  heap w = ∅ -> alloc_script w = [] -> rd_script w = [] ->
  stdin w = (bs ++ [c]) ++ rest ->
  result_cells (read_line C sg mb (S (S fuel)) w) =
    Some ((Some <$> (bs ++ [c])) ++ Some x00 :: replicate (Z.to_nat C) None) /\
  reallocs (read_line C sg mb (S (S fuel)) w).2 = S (reallocs w) /\
  read_requests (read_line C sg mb (S (S fuel)) w).2 =
    read_requests w ++ [(0, C); (C, 0)] /\
  stdin (read_line C sg mb (S (S fuel)) w).2 = rest.
Proof.
  intros Hlen Hc Hh Ha Hr Hs.
  destruct w as [si rs al ind h np tr]. cbn in Hh, Ha, Hr, Hs.
  subst si rs al h.
  assert (Hrd : sys_read C (mkWorld ((bs ++ [c]) ++ rest) [] [] ind ∅ np tr)
                = (Some (bs ++ [c]), mkWorld rest [] [] ind ∅ np tr)).
  { rewrite sys_read_all by (rewrite length_app; lia).
    rewrite <- Hlen, Nat2Z.id.
    by rewrite take_app_length, drop_app_length. }
  assert (E : read_line C sg mb (S (S fuel))
                (mkWorld ((bs ++ [c]) ++ rest) [] [] ind ∅ np tr)
              = (Returned (Some (S np)),
                 mkWorld rest [] [] ind
                   {[S np := (Some <$> (bs ++ [c])) ++
                               Some x00 :: replicate (Z.to_nat C) None]}
                   (S (S np))
                   ((((tr ++ [EvMalloc (C + 1) (Some np)]) ++
                      [EvRead (InBlock np 0) C C]) ++
                     [EvRealloc np (2 * C + 1) (Some (S np))]) ++
                    [EvRead (InBlock (S np) C) 0 0]))).
  { unfold read_line.
    rewrite Z.mul_1_l, size_t_small by lia.
    rewrite malloc_granted by lia.
    cbn [loop].
    rewrite (read_line_first_read_continues C sg mb HC ltac:(lia) Hmb bs c
               _ _ _ _ ind np tr ltac:(lia) Hc Hrd).
    rewrite Hlen.
    by rewrite read_line_body_after_full_chunk. }
  rewrite E. unfold result_cells, reallocs, read_requests.
  cbn [fst snd heap trace stdin]. rewrite lookup_singleton_eq.
  rewrite !omap_app. cbn [omap]. rewrite !app_nil_r.
  repeat split; try done.
  - rewrite length_app. cbn. lia.
  - by rewrite <- app_assoc.
Qed.

End Truncation.

(** ** [read_char] one call after another *)

Lemma read_char_next b s w :
  read_char (set_stdin (b :: s) [] w) =
  (b, set_stdin s [] (log (EvRead OnStack 1 1) w)).
Proof.
  unfold read_char, bind, uninit_char, fread_line, sys_read.
  cbn [set_stdin stdin rd_script].
  replace (Z.to_nat (Z.min 1 (Z.of_nat (length (b :: s))))) with 1%nat
    by (cbn [length]; lia).
  reflexivity.
Qed.

Lemma read_char_exhausted w :
  read_char (set_stdin [] [] w) =
  (x00, set_stdin [] [] (log (EvRead OnStack 1 0) w)).
Proof. reflexivity. Qed.

Lemma read_chars_exhausted k : forall w,
  (read_chars k (set_stdin [] [] w)).1 = replicate k x00.
Proof.
  induction k as [|k IH]; intros w; [reflexivity|].
  cbn [read_chars]. rewrite read_char_exhausted.
  specialize (IH (log (EvRead OnStack 1 0) w)).
  destruct (read_chars k _) as [cs w2]. cbn in *. by rewrite IH.
Qed.

(** * The claims *)

(** C1.  [read_line] does not return a line longer than one chunk: with
    C = 4 and the stream "abcdefghij" followed by end of stream it returns
    "abcd" after a single reallocation and leaves "efghij" unread, because
    the read that follows the growth asks for [4 - 4 = 0] bytes and its
    result 0 is taken for the end of the stream. *)
Theorem read_line_keeps_only_first_chunk sg fuel :
  let r := read_line 4 sg PTRDIFF_MAX (S (S fuel)) (initial_world abcdefghij) in
  result_text r = Some ["a"; "b"; "c"; "d"]%byte /\
  reallocs r.2 = 1%nat /\
  stdin r.2 = ["e"; "f"; "g"; "h"; "i"; "j"]%byte.
Proof. destruct sg; vm_compute; done. Qed.

(** C2.  [read_line] does not terminate after a read that hands over fewer
    bytes than a chunk and does not end in a newline: on "hi" followed by
    end of stream, and on "hi\n" arriving as "hi" first, every iteration
    after the first leaves the locals and the world as they are (no
    reallocation, no read, no return), whatever the fuel. *)
Theorem read_line_spins_on_short_read sg :
  (forall fuel, (read_line 250 sg PTRDIFF_MAX fuel hi_world).1 = OutOfFuel) /\
  (forall n, read_line_state 250 sg PTRDIFF_MAX (S n) hi_world
             = Some (mkLocals 1 2 2, spin_world)) /\
  trace spin_world
    = [EvMalloc 251 (Some 1%nat); EvRead (InBlock 1%nat 0) 250 2] /\
  (forall fuel,
     (read_line 250 sg PTRDIFF_MAX fuel hi_short_world).1 = OutOfFuel) /\
  (forall n, read_line_state 250 sg PTRDIFF_MAX (S n) hi_short_world
             = Some (mkLocals 1 2 2, spin_short_world)) /\
  trace spin_short_world
    = [EvMalloc 251 (Some 1%nat); EvRead (InBlock 1%nat 0) 250 2] /\
  stdin spin_short_world = [x0a].
Proof.
  assert (H1 : read_line_state 250 sg PTRDIFF_MAX 1 hi_world
               = Some (mkLocals 1 2 2, spin_world))
    by (destruct sg; vm_compute; reflexivity).
  assert (H2 : read_line_body 250 sg PTRDIFF_MAX (mkLocals 1 2 2) spin_world
               = (Val (mkLocals 1 2 2), spin_world))
    by (destruct sg; vm_compute; reflexivity).
  assert (H3 : read_line_state 250 sg PTRDIFF_MAX 1 hi_short_world
               = Some (mkLocals 1 2 2, spin_short_world))
    by (destruct sg; vm_compute; reflexivity).
  assert (H4 : read_line_body 250 sg PTRDIFF_MAX (mkLocals 1 2 2)
                 spin_short_world
               = (Val (mkLocals 1 2 2), spin_short_world))
    by (destruct sg; vm_compute; reflexivity).
  destruct (read_line_stuck _ _ _ _ _ _ H1 H2) as [Ha Hb].
  destruct (read_line_stuck _ _ _ _ _ _ H3 H4) as [Hc Hd].
  repeat split; auto.
Qed.

(** Where [read_line] does return the line: when the first read hands over
    a line with its newline at the very end, at most one chunk long, the
    block returned holds exactly the bytes before that newline followed by
    the terminator in the newline's place, without any reallocation; as a C
    string it reads as those bytes (given that none of them is itself a null
    byte). *)
Theorem read_line_newline_in_first_chunk C sg mb pre fuel w :
  0 < C -> C + 1 <= mb -> mb < 2 ^ 64 ->
  Z.of_nat (length pre) < C ->
  heap w = ∅ -> alloc_script w = [] ->
  (sys_read C w).1 = Some (pre ++ [x0a]) ->
  (0 < fuel)%nat ->
  result_cells (read_line C sg mb fuel w) =
    Some ((Some <$> pre) ++
          Some x00 :: replicate (Z.to_nat C - length pre) None) /\
  (Forall (fun c => c <> x00) pre ->
   result_text (read_line C sg mb fuel w) = Some pre) /\
  reallocs (read_line C sg mb fuel w).2 = reallocs w.
Proof.
  intros HC Hfit Hmb Hpre Hh Ha Hrd Hfuel.
  destruct w as [si rs al ind h np tr]. cbn in Hh, Ha. subst.
  destruct fuel as [|fuel]; [lia|].
  destruct (read_line_first_chunk_run C sg mb pre fuel si rs ind np tr)
    as (si' & rs' & E); try done.
  unfold result_text, result_cells, reallocs. rewrite E.
  cbn [fst snd heap trace].
  rewrite lookup_singleton_eq. split; [done|]. split.
  - intros Hnz. cbn. f_equal. by apply c_string_terminated.
  - rewrite !omap_app. cbn. by rewrite !app_nil_r.
Qed.

(** The stream "hi\n" yields the text "hi". *)
Lemma read_line_newline_in_first_chunk_witness :
  result_text
    (read_line 250 true PTRDIFF_MAX 1 (initial_world ["h"; "i"; x0a]%byte))
  = Some hi.
Proof.
  apply (read_line_newline_in_first_chunk 250 true PTRDIFF_MAX hi 1
           (initial_world ["h"; "i"; x0a]%byte)).
  - reflexivity.
  - by vm_compute.
  - reflexivity.
  - reflexivity.
  - reflexivity.
  - reflexivity.
  - reflexivity.
  - apply Nat.lt_0_1.
  - repeat constructor; discriminate.
Defined.

(** C3.  [read_line] does not return the bytes before a newline that lies
    within the first chunk unless a read happens to end exactly at it: only
    the last byte read is tested.  On "hi\n" arriving as "hi" first, and on
    "hi\nabc" handed over in one read, it never returns; with C = 4 on
    "ab\ncd" it returns "ab\nc", newline included. *)
Theorem read_line_misses_newline_inside_chunk sg :
  (forall fuel,
     (read_line 250 sg PTRDIFF_MAX fuel hi_short_world).1 = OutOfFuel) /\
  (forall fuel,
     (read_line 250 sg PTRDIFF_MAX fuel (initial_world hi_newline_abc)).1
     = OutOfFuel) /\
  (forall fuel,
     result_text
       (read_line 4 sg PTRDIFF_MAX (S (S fuel)) (initial_world ab_newline_cd))
     = Some ["a"; "b"; x0a; "c"]%byte).
Proof.
  assert (Hc : forall c : byte, c <> x0a -> c <> xff -> ~ line_ends sg c)
    by (intros c H1 H2 [H | [_ H]]; congruence).
  split_and!.
  - apply (read_line_short_read_never_returns 250 sg PTRDIFF_MAX
             ltac:(done) ltac:(done) ltac:(done) ["h"]%byte "i"%byte);
      try done.
    by apply Hc.
  - apply (read_line_short_read_never_returns 250 sg PTRDIFF_MAX
             ltac:(done) ltac:(done) ltac:(done)
             ["h"; "i"; x0a; "a"; "b"]%byte "c"%byte);
      try done.
    by apply Hc.
  - intros fuel. destruct sg; vm_compute; reflexivity.
Qed.

(** C4.  The reads of [read_line] do not all ask for [C - (length mod C)]
    bytes: the source asks for [C - length], so with C = 4 the read issued
    after the buffer has grown, at offset 4, asks for 0 bytes where
    [4 - 4 mod 4] is 4. *)
Theorem read_line_second_request_is_empty sg fuel :
  read_requests
    (read_line 4 sg PTRDIFF_MAX (S (S fuel)) (initial_world abcdefghij)).2
  = [(0, 4); (4, 0)] /\ 4 - 4 mod 4 = 4.
Proof. destruct sg; vm_compute; done. Qed.

(** C5.  Where [char] is signed, a 0xFF data byte at the end of a read ends
    the line: on the stream "a", 0xFF (no newline anywhere) [read_line]
    returns "a", having overwritten the 0xFF byte with the terminator. *)
Theorem read_line_ends_at_0xff_byte fuel :
  let r := read_line 250 true PTRDIFF_MAX (S fuel)
             (initial_world ["a"; xff]%byte) in
  r.1 = Returned (Some 1%nat) /\
  result_text r = Some ["a"]%byte /\
  (result_cells r ≫= (.!! 1%nat)) = Some (Some x00) /\
  read_requests r.2 = [(0, 250)].
Proof. vm_compute. done. Qed.

(** C6.  [raw_read_line] does not notice the end of the stream: it never
    looks at a read count of 0 and tests the unwritten [c] instead.  On "hi"
    followed by end of stream, with [c] still holding the last byte read, it
    never returns the buffer, whatever the chunk size, platform and fuel;
    with the default chunk it is still appending after 600 iterations, two
    reallocations in. *)
Theorem raw_read_line_misses_end_of_stream :
  (forall C sg mb fuel,
     returned_buffer (raw_read_line C sg mb fuel stale_world).1 = None) /\
  (raw_read_line 250 true PTRDIFF_MAX 600 stale_world).1 = OutOfFuel /\
  reallocs (raw_read_line 250 true PTRDIFF_MAX 600 stale_world).2 = 2%nat /\
  stdin (raw_read_line 250 true PTRDIFF_MAX 600 stale_world).2 = [].
Proof.
  split; [| by vm_compute].
  intros C sg mb fuel. unfold raw_read_line, malloc, alloc_grant, stale_world.
  cbn [alloc_script].
  destruct (_ <=? mb); [| reflexivity].
  apply raw_loop_never_returns. repeat split.
  - intros n [H | [_ H]]; discriminate.
  - repeat constructor; intros [H | [_ H]]; discriminate.
Qed.

(** C7.  Started with nothing allocated, [read_line] and [raw_read_line]
    return NULL whenever one of their calls failed (the first allocation, a
    reallocation or a read), and then no block is left: the buffer was freed
    and is not handed to the caller.  They return NULL in no other case. *)
Theorem failure_frees_everything C sg mb fuel w :
  heap w = ∅ ->
  (((failures w < failures (read_line C sg mb fuel w).2)%nat ->
    (read_line C sg mb fuel w).1 = Returned None /\
    heap (read_line C sg mb fuel w).2 = ∅) /\
   ((read_line C sg mb fuel w).1 = Returned None ->
    (failures w < failures (read_line C sg mb fuel w).2)%nat /\
    heap (read_line C sg mb fuel w).2 = ∅)) /\
  (((failures w < failures (raw_read_line C sg mb fuel w).2)%nat ->
    (raw_read_line C sg mb fuel w).1 = Returned None /\
    heap (raw_read_line C sg mb fuel w).2 = ∅) /\
   ((raw_read_line C sg mb fuel w).1 = Returned None ->
    (failures w < failures (raw_read_line C sg mb fuel w).2)%nat /\
    heap (raw_read_line C sg mb fuel w).2 = ∅)).
Proof.
  intros Hw.
  pose proof (wp_malloc mb (size_t (1 * (C + 1))) w Hw) as Hm.
  pose proof (wp_malloc_failures mb (size_t (1 * (C + 1))) w) as Hf.
  unfold read_line, raw_read_line, wp in *.
  destruct (malloc mb _ w) as [[[p|]|r|] w1]; cbn [fst snd] in *; try done.
  - destruct Hm as [Hh _].
    assert (Ho : owns (mkLocals p 0 0) w1) by by eexists.
    pose proof (loop_fails_cleanly (read_line_body C sg mb) fuel _ _
                  (read_line_body_fails C sg mb) Ho) as [H1 H2].
    pose proof (loop_fails_cleanly (raw_read_line_body C sg mb) fuel _ _
                  (raw_read_line_body_fails C sg mb) Ho) as [H3 H4].
    rewrite Hf in H2, H4.
    destruct (loop (read_line_body C sg mb) fuel _ w1) as [[[q|]| |] w2];
      destruct (loop (raw_read_line_body C sg mb) fuel _ w1) as [[[q'|]| |] w3];
      cbn [fst snd settled] in *; repeat split; intros; try done; lia.
  - rewrite Hf. repeat split; (done || lia).
Qed.

(** With C = 4 and the second allocation failing, both readers return NULL
    on "abcdefghij" and leave the heap empty. *)
Lemma failure_frees_everything_witness :
  (read_line 4 true PTRDIFF_MAX 5 realloc_fails_world).1 = Returned None /\
  heap (read_line 4 true PTRDIFF_MAX 5 realloc_fails_world).2 = ∅ /\
  (raw_read_line 4 true PTRDIFF_MAX 5 realloc_fails_world).1 = Returned None /\
  heap (raw_read_line 4 true PTRDIFF_MAX 5 realloc_fails_world).2 = ∅.
Proof.
  destruct (failure_frees_everything 4 true PTRDIFF_MAX 5 realloc_fails_world
              eq_refl) as [[H1 _] [H2 _]].
  assert (F1 : (failures realloc_fails_world <
                failures (read_line 4 true PTRDIFF_MAX 5
                            realloc_fails_world).2)%nat)
    by (vm_compute; lia).
  assert (F2 : (failures realloc_fails_world <
                failures (raw_read_line 4 true PTRDIFF_MAX 5
                            realloc_fails_world).2)%nat)
    by (vm_compute; lia).
  exact (conj (proj1 (H1 F1)) (conj (proj2 (H1 F1))
           (conj (proj1 (H2 F2)) (proj2 (H2 F2))))).
Defined.

(** C8.  [raw_read_line] stops at the first byte of the stream that is a null
    byte or compares equal to EOF, and returns exactly the bytes before it,
    leaving the rest of the stream unread; a newline is not such a byte and
    is stored like any other. *)
Theorem raw_read_line_stops_at_null_or_EOF C sg mb pre t rest fuel w :
  0 < C -> mb < 2 ^ 64 -> C + Z.of_nat (length pre) + 1 <= mb ->
  Forall (fun c => ~ stops sg c) pre -> stops sg t ->
  heap w = ∅ -> alloc_script w = [] -> rd_script w = [] ->
  stdin w = pre ++ t :: rest ->
  (length pre < fuel)%nat ->
  ~ stops sg x0a /\
  result_text (raw_read_line C sg mb fuel w) = Some pre /\
  stdin (raw_read_line C sg mb fuel w).2 = rest.
Proof.
  intros HC Hmb Hfit Hpre Ht Hh Ha Hr Hs Hfuel.
  split. { intros [H | [_ H]]; discriminate. }
  destruct w as [si rs al ind h np tr]. cbn in Hh, Ha, Hr, Hs. subst.
  unfold raw_read_line.
  rewrite Z.mul_1_l, size_t_small by lia.
  rewrite malloc_granted by lia.
  pose proof (raw_loop_correct C sg mb HC Hmb t rest ind pre [] np 0 (S np)
                (tr ++ [EvMalloc (C + 1) (Some np)]) fuel Hpre Ht) as H.
  unfold raw_state, filled in H. cbn [length fst snd fmap list_fmap app] in H.
  change (Z.of_nat 0) with 0 in H.
  rewrite Nat.sub_0_r, Z.sub_0_r, Z.add_0_l in H.
  destruct H as (q & tail & np' & tr' & ->); [lia | lia | done |].
  unfold result_text, result_cells. cbn [fst snd heap stdin].
  rewrite lookup_singleton_eq. cbn [fmap option_fmap option_map].
  split; [|done]. f_equal. apply c_string_terminated.
  eapply Forall_impl; [exact Hpre|]. intros c Hc ->. apply Hc. by left.
Qed.

(** With C = 4, "hi\nabc" is returned from "hi\nabc\0z", newline included,
    and "z" stays on the stream. *)
Lemma raw_read_line_stops_at_null_or_EOF_witness :
  ~ stops true x0a /\
  result_text (raw_read_line 4 true PTRDIFF_MAX 7 (initial_world two_lines_nul))
  = Some ["h"; "i"; x0a; "a"; "b"; "c"]%byte /\
  stdin (raw_read_line 4 true PTRDIFF_MAX 7 (initial_world two_lines_nul)).2
  = ["z"]%byte.
Proof.
  apply (raw_read_line_stops_at_null_or_EOF 4 true PTRDIFF_MAX
           ["h"; "i"; x0a; "a"; "b"; "c"]%byte x00 ["z"]%byte 7
           (initial_world two_lines_nul)).
  - reflexivity.
  - reflexivity.
  - by vm_compute.
  - repeat constructor; intros [H | [_ H]]; discriminate.
  - by left.
  - reflexivity.
  - reflexivity.
  - reflexivity.
  - reflexivity.
  - by vm_compute.
Defined.

(** C9.  For a positive chunk size, no access of [read_line] or
    [raw_read_line] falls outside the buffer's current allocation, and at
    the head of every iteration the allocation has room for [length] bytes
    and the terminator. *)
Theorem capacity_invariant C sg mb w :
  0 < C -> 0 < mb -> C + mb < 2 ^ 64 -> heap w = ∅ ->
  (forall fuel, (read_line C sg mb fuel w).1 <> Crashed) /\
  (forall n l w', read_line_state C sg mb n w = Some (l, w') ->
     exists cells, heap w' !! l_buffer l = Some cells /\
       l_length l + 1 <= Z.of_nat (length cells)) /\
  (forall fuel, (raw_read_line C sg mb fuel w).1 <> Crashed) /\
  (forall n l w', raw_read_line_state C sg mb n w = Some (l, w') ->
     exists cells, heap w' !! l_buffer l = Some cells /\
       l_length l + 1 <= Z.of_nat (length cells)).
Proof.
  intros HC Hmb0 Hmb Hw.
  assert (Hsz : size_t (1 * (C + 1)) = C + 1)
    by (rewrite Z.mul_1_l; apply size_t_small; lia).
  pose proof (wp_malloc mb (C + 1) w Hw) as Hm.
  unfold read_line, raw_read_line, read_line_state, raw_read_line_state, wp
    in *.
  rewrite !Hsz.
  destruct (malloc mb _ w) as [[[p|]|r|] w1]; cbn [fst snd] in *; try done.
  destruct Hm as [Hh Hfit].
  assert (Hrl : read_line_inv C mb (mkLocals p 0 0) w1).
  { eexists; split; [done|]. rewrite length_replicate. cbn. lia. }
  assert (Hraw : raw_read_line_inv C mb (mkLocals p 0 0) w1).
  { eexists; split; [done|]. rewrite length_replicate. cbn. lia. }
  repeat split.
  - intros fuel Hc.
    pose proof (loop_wp (read_line_body C sg mb) (read_line_inv C mb) safe
                  (read_line_body_safe C sg mb HC Hmb) fuel _ _ Hrl
                  (fun _ => I)) as H.
    by rewrite Hc in H.
  - intros n l w' Hs.
    pose proof (loop_state_wp (read_line_body C sg mb) (read_line_inv C mb)
                  safe (read_line_body_safe C sg mb HC Hmb) n _ _ _ _ Hrl Hs)
      as (cells & Hc & Hcap & Hlen).
    exists cells. rewrite Hc, lookup_singleton_eq. split; [done | lia].
  - intros fuel Hc.
    pose proof (loop_wp (raw_read_line_body C sg mb) (raw_read_line_inv C mb)
                  safe (raw_read_line_body_safe C sg mb HC Hmb) fuel _ _ Hraw
                  (fun _ => I)) as H.
    by rewrite Hc in H.
  - intros n l w' Hs.
    pose proof (loop_state_wp (raw_read_line_body C sg mb)
                  (raw_read_line_inv C mb) safe
                  (raw_read_line_body_safe C sg mb HC Hmb) n _ _ _ _ Hraw Hs)
      as (cells & Hc & Hmax & Hwr & Hlen & Hcap).
    exists cells. rewrite Hc, lookup_singleton_eq. split; [done | lia].
Qed.

(** The invariant at C = 4 on "abcdefghij". *)
Lemma capacity_invariant_witness :
  (forall fuel,
     (read_line 4 true PTRDIFF_MAX fuel (initial_world abcdefghij)).1
     <> Crashed) /\
  (forall n l w',
     read_line_state 4 true PTRDIFF_MAX n (initial_world abcdefghij)
     = Some (l, w') ->
     exists cells, heap w' !! l_buffer l = Some cells /\
       l_length l + 1 <= Z.of_nat (length cells)) /\
  (forall fuel,
     (raw_read_line 4 true PTRDIFF_MAX fuel (initial_world abcdefghij)).1
     <> Crashed) /\
  (forall n l w',
     raw_read_line_state 4 true PTRDIFF_MAX n (initial_world abcdefghij)
     = Some (l, w') ->
     exists cells, heap w' !! l_buffer l = Some cells /\
       l_length l + 1 <= Z.of_nat (length cells)).
Proof.
  apply (capacity_invariant 4 true PTRDIFF_MAX (initial_world abcdefghij)).
  - reflexivity.
  - reflexivity.
  - reflexivity.
  - reflexivity.
Defined.

(** C10.  [read_char] returns the byte of a read that delivered exactly one
    byte and the zero byte otherwise; called again and again on a stream it
    returns the bytes of the stream in order and then zero bytes. *)
Theorem read_char_spec :
  (forall w, (read_char w).1 =
             match (sys_read 1 w).1 with Some [c] => c | _ => x00 end) /\
  (forall s k w,
     (read_chars (length s + k) (set_stdin s [] w)).1 = s ++ replicate k x00).
Proof.
  split.
  - intros w. unfold read_char, bind, uninit_char, fread_line.
    destruct (sys_read 1 w) as [[[|c [|c' bs]]|] w1];
      cbn [fst snd pure length]; try done.
    destruct (Z.eqb_spec (Z.of_nat (S (S (length bs)))) 1); [lia | done].
  - induction s as [|b s IH]; intros k w.
    + apply read_chars_exhausted.
    + cbn [length Nat.add read_chars]. rewrite read_char_next.
      specialize (IH k (log (EvRead OnStack 1 1) w)).
      destruct (read_chars _ _) as [cs w2]. cbn in *. by rewrite IH.
Qed.

(** * Further properties *)

(** ** [read_char] and the stream *)

(** A read of one byte hands over nothing or the head of the stream. *)
Lemma sys_read_one_cases w :
  ((sys_read 1 w).1 = None /\ stdin (sys_read 1 w).2 = stdin w) \/
  ((sys_read 1 w).1 = Some [] /\ stdin (sys_read 1 w).2 = stdin w) \/
  (exists b, (sys_read 1 w).1 = Some [b] /\ stdin w = b :: stdin (sys_read 1 w).2).
Proof.
  unfold sys_read. destruct (rd_script w) as [|[|k] rs]; cbn [fst snd set_stdin stdin].
  - destruct (stdin w) as [|b s].
    + right; left. done.
    + right; right. exists b.
      replace (Z.to_nat (Z.min 1 (Z.of_nat (length (b :: s))))) with 1%nat
        by (cbn [length]; lia).
      done.
  - by left.
  - destruct (stdin w) as [|b s].
    + right; left. by rewrite take_nil, drop_nil.
    + right; right. exists b.
      replace (Z.to_nat (Z.min (Z.min 1 (Z.of_nat (length (b :: s)))) (Z.pos k)))
        with 1%nat by (cbn [length]; lia).
      done.
Qed.

(** X1.  [read_char] issues exactly one read of one byte and touches no
    allocated block; it either takes nothing from the stream and returns the
    zero byte, or takes exactly the byte it returns. *)
Theorem read_char_consumes_what_it_returns w :
  heap (read_char w).2 = heap w /\
  (exists n, trace (read_char w).2 = trace w ++ [EvRead OnStack 1 n]) /\
  (((read_char w).1 = x00 /\ stdin (read_char w).2 = stdin w) \/
   stdin w = (read_char w).1 :: stdin (read_char w).2).
Proof.
  pose proof (sys_read_one_cases w) as H.
  pose proof (sys_read_heap 1 w) as Hh.
  assert (Ht : trace (sys_read 1 w).2 = trace w).
  { unfold sys_read. destruct (rd_script w) as [|[|k] rs]; reflexivity. }
  unfold read_char, bind, uninit_char, fread_line.
  destruct (sys_read 1 w) as [[bs|] w1]; cbn [fst snd] in *.
  - destruct H as [[H _] | [[H Hs] | (b & H & Hs)]]; [done | |];
      injection H as ->; cbn; rewrite Ht; (split; [done|]); (split; [by eexists|]).
    + by left.
    + by right.
  - cbn. rewrite Ht. split; [done|]. split; [by eexists|].
    left. split; [done|]. by destruct H as [[_ H] | [[H _] | (b & H & _)]].
Qed.

(** ** What the readers do to the stream *)

Lemma grow_when_full_stdin C mb l w :
  stdin (grow_when_full C mb l w).2 = stdin w.
Proof.
  unfold grow_when_full, bind, realloc, free, alloc_grant, pure, ret_fn,
    log, set_heap, set_alloc_script.
  frame_cases.
Qed.

Lemma store_stdin p i c w : stdin (store p i c w).2 = stdin w.
Proof. unfold store, set_heap. frame_cases. Qed.

Lemma free_stdin p w : stdin (free p w).2 = stdin w.
Proof. unfold free, log, set_heap. frame_cases. Qed.

Lemma malloc_stdin mb size w : stdin (malloc mb size w).2 = stdin w.
Proof. unfold malloc, alloc_grant, log, set_heap, set_alloc_script. frame_cases. Qed.

(** The bytes a read returns are taken off the front of the stream. *)
Lemma fread_line_conserves a size w :
  match fread_line a size w with
  | (Val (n, bs), w') => stdin w = bs ++ stdin w' /\ (n = -1 -> bs = [])
  | (Return _, _) => False
  | (Fault, _) => True
  end.
Proof.
  unfold fread_line, sys_read, bind, store_bytes, pure, log, set_heap, set_stdin.
  destruct (rd_script w) as [|[|k] rs]; destruct a; cbn [fst snd];
    repeat (case_match; simplify_eq/=); try done;
    try (split; [cbn; by rewrite take_drop | lia]).
Qed.

Lemma wp_and_stdin {A} (m : M A) w (Q : flow A -> World -> Prop) :
  wp m w Q -> stdin (m w).2 = stdin w ->
  wp m w (fun r w' => Q r w' /\ stdin w' = stdin w).
Proof. unfold wp. auto. Qed.

Lemma load_defined p i c w cells :
  heap w = {[p := cells]} -> 0 <= i ->
  cells !! Z.to_nat i = Some (Some c) ->
  load p i w = (Val c, w).
Proof.
  intros Hh Hi Hc. unfold load. rewrite Hh, lookup_singleton_eq.
  apply lookup_lt_Some in Hc as Hlt.
  destruct (Z.leb_spec 0 i), (Z.ltb_spec i (Z.of_nat (length cells))); try lia.
  cbn. by rewrite Hc.
Qed.

Lemma filled_resize_any stored cap cap' :
  Z.of_nat (length stored) <= cap' ->
  resize (Z.to_nat cap') None (filled stored cap) = filled stored cap'.
Proof.
  intros H. unfold filled.
  rewrite resize_app_ge by (rewrite length_fmap; lia).
  by rewrite resize_replicate, length_fmap.
Qed.

Lemma filled_inserts stored bs cap :
  Z.of_nat (length stored) + Z.of_nat (length bs) <= cap ->
  list_inserts (Z.to_nat (Z.of_nat (length stored))) (Some <$> bs)
    (filled stored cap)
  = filled (stored ++ bs) cap.
Proof.
  intros H. unfold filled. rewrite Nat2Z.id.
  replace (length stored) with (length (Some <$> stored) + 0)%nat at 1
    by (rewrite length_fmap; lia).
  rewrite list_inserts_app_r.
  replace (Z.to_nat cap - length stored)%nat
    with (length bs + (Z.to_nat cap - length (stored ++ bs)))%nat
    by (rewrite length_app; lia).
  rewrite replicate_add, list_inserts_0_r
    by (rewrite length_fmap, length_replicate; lia).
  by rewrite fmap_app, <- app_assoc.
Qed.

Lemma filled_last kept c cap :
  filled (kept ++ [c]) cap !! length kept = Some (Some c).
Proof.
  unfold filled. rewrite fmap_app, <- app_assoc. cbn [fmap list_fmap app].
  apply list_lookup_middle. by rewrite length_fmap.
Qed.

Lemma filled_store_last kept c x cap :
  <[length kept := Some x]> (filled (kept ++ [c]) cap)
  = (Some <$> kept) ++
    Some x :: replicate (Z.to_nat cap - length (kept ++ [c])) None.
Proof.
  unfold filled. rewrite fmap_app, <- app_assoc. cbn [fmap list_fmap app].
  rewrite insert_app_r_alt by (rewrite length_fmap; lia).
  by rewrite length_fmap, Nat.sub_diag.
Qed.

Section Conservation.
Variables (C : Z) (sg : bool) (mb : Z).
Hypothesis HC : 0 < C.
Hypothesis Hmb : C + mb < 2 ^ 64.

(** The loop head only returns when the window is full. *)
Lemma wp_grow_when_full_null l w :
  wp (grow_when_full C mb l) w (fun r w' =>
    stdin w' = stdin w /\ forall q, r = Return q -> l_written l = C).
Proof.
  unfold wp. split; [apply grow_when_full_stdin|].
  intros q E. unfold grow_when_full in E.
  destruct (Z.eqb_spec (l_written l) C); [done|]. discriminate E.
Qed.

Lemma read_line_body_keeps s0 l w :
  read_line_keeps C mb s0 l w ->
  wp (read_line_body C sg mb l) w (fun r w' =>
    match r with
    | Val l' => read_line_keeps C mb s0 l' w'
    | Return r' => read_line_took C sg s0 (Returned r') w'
    | Fault => False
    end).
Proof.
  intros (consumed & cap & Hs & Hh & Hlen & Hwr & HlenC & Hcap).
  unfold read_line_body. apply wp_bind.
  eapply wp_mono;
    [apply wp_conj; [by apply wp_grow_when_full | apply wp_grow_when_full_null]|].
  intros [l1|[p|]|] w1 [H [Hst Hnull]]; try done.
  2:{ exists consumed. rewrite Hst. split; [done|]. split; [|done].
      right. specialize (Hnull None eq_refl). lia. }
  clear Hnull. destruct H as [Hl1 Hg].
  assert (exists cap1, heap w1 = {[l_buffer l1 := filled consumed cap1]} /\
            C + 1 <= cap1 <= mb /\
            (l_written l1 = l_length l1 \/
             (l_written l1 = 0 /\ l_length l1 = C)))
    as (cap1 & Hh1 & Hcap1 & Hw1).
  { destruct Hg as [(_ & -> & Hw) | (HwC & Hw0 & Hfit & Hw)].
    - exists cap. rewrite Hw. auto.
    - rewrite Z.mul_1_l, size_t_small in * by lia.
      exists (C + l_length l + 1). rewrite Hw.
      rewrite filled_resize_any by lia. split; [done|]. split; [lia|]. right. lia. }
  rewrite <- Hl1 in Hlen, HlenC. rewrite <- Hst in Hs.
  clear Hg Hh Hcap Hwr Hl1 Hst cap.
  apply wp_bind.
  eapply (wp_mono _ _ (fun r w' =>
            match r with
            | Val l' => read_line_keeps C mb s0 l' w'
            | Return r' => read_line_took C sg s0 (Returned r') w'
            | Fault => False
            end)).
  - destruct (Z.eqb_spec (l_written l1) 0) as [Hz|Hnz].
    + apply wp_bind. rewrite size_t_small by lia.
      pose proof (wp_fread_line_block (l_buffer l1) (l_length l1)
                    (C - l_length l1) w1 _ Hh1 ltac:(lia)) as Hb.
      pose proof (fread_line_conserves (InBlock (l_buffer l1) (l_length l1))
                    (C - l_length l1) w1) as Hc.
      unfold wp at 1. unfold wp in Hb.
      destruct (fread_line _ _ w1) as [[[n bs]|r|] w2]; cbn [fst snd] in *;
        [| done | apply Hb; rewrite filled_length by lia; lia].
      destruct Hc as [Hc Hfail].
      destruct Hb as [[-> Hh2] | (Hn & Hn1 & _ & Hfit & Hh2)].
      * rewrite (Hfail eq_refl) in Hc. cbn [app] in Hc. cbn.
        apply wp_bind.
        eapply wp_mono;
          [apply wp_and_stdin;
           [eapply wp_free; by rewrite Hh2, Hh1 | apply free_stdin]|].
        intros r w3 [[-> H3] Hs3]. apply wp_ret_fn.
        exists consumed. rewrite Hs3, <- Hc. split; [done|]. split; [|done].
        destruct Hw1 as [Hw1 | [_ Hw1]]; [left | right; lia].
        apply length_zero_iff_nil. lia.
      * destruct (Z.eqb_spec n (-1)); [lia|].
        rewrite Hlen in Hh2. rewrite filled_inserts in Hh2 by lia.
        destruct (Z.eqb_spec n 0) as [Hn0|Hn0].
        -- assert (bs = []) as -> by (apply length_zero_iff_nil; lia).
           rewrite app_nil_r in Hh2. cbn [app] in Hc.
           apply wp_bind.
           eapply wp_mono;
             [apply wp_and_stdin; [by eapply wp_store | apply store_stdin]|].
           intros [[]|r|] w3 [H Hs3];
             [| done | apply (proj1 H); rewrite filled_length by lia; lia].
           apply wp_ret_fn. destruct H as [_ H].
           rewrite Hlen, filled_store in H by lia.
           eexists consumed, consumed, _. rewrite Hs3, <- Hc.
           split; [done|]. split; [exact H|]. split; [by left | lia].
        -- apply wp_pure.
           assert (Hl0 : l_length l1 = 0).
           { destruct Hw1 as [Hw1 | [_ Hw1]]; lia. }
           exists (consumed ++ bs), cap1. cbn [l_buffer l_length l_written].
           rewrite !size_t_small by lia. rewrite length_app.
           split_and!; [by rewrite <- app_assoc, <- Hc | done | lia ..].
    + apply wp_pure. exists consumed, cap1.
      repeat split; try done; lia.
  - intros [l2|r'|] w2 H; try done.
    destruct H as (consumed2 & cap2 & Hs2 & Hh2 & Hlen2 & Hwr2 & HlenC2 & Hcap2).
    destruct (Z.ltb_spec 0 (l_length l2)) as [Hpos|Hz];
      [| apply wp_pure; by exists consumed2, cap2].
    destruct consumed2 as [|c kept _] using rev_ind; [cbn in Hlen2; lia|].
    rewrite length_app in Hlen2. cbn [length] in Hlen2.
    apply wp_bind. unfold wp at 1.
    rewrite (load_defined _ _ c _ _ Hh2)
      by (try lia;
          replace (Z.to_nat (l_length l2 - 1)) with (length kept) by lia;
          apply filled_last).
    cbn [fst snd].
    destruct ((char_to_int sg c =? EOF) || (char_to_int sg c =? 10)) eqn:Et.
    + apply line_end_test in Et.
      apply wp_bind.
      eapply wp_mono;
        [apply wp_and_stdin; [by eapply wp_store | apply store_stdin]|].
      intros [[]|r|] w3 [H Hs3];
        [| done
         | apply (proj1 H); rewrite filled_length
             by (rewrite length_app; cbn [length]; lia); lia].
      apply wp_ret_fn. destruct H as [_ H].
      replace (Z.to_nat (l_length l2 - 1)) with (length kept) in H by lia.
      rewrite filled_store_last in H.
      eexists (kept ++ [c]), kept, _. rewrite Hs3.
      split; [done|]. split; [exact H|]. split; [right; by exists c|].
      rewrite length_app. cbn [length]. lia.
    + apply wp_pure. exists (kept ++ [c]), cap2.
      rewrite length_app. cbn [length]. repeat split; try done; lia.
Qed.

End Conservation.

(** X2.  Whatever the reads and the allocator do, [read_line] takes bytes
    off the front of the stream only, at most one chunk of them, and that
    whether it returns or is still running.  When it returns a buffer, the
    buffer holds those bytes in order followed by the terminator, except
    that a final newline (or EOF-valued byte) is replaced by the terminator;
    when it returns NULL, it has taken no byte or exactly one chunk, and no
    block is left; while it runs, its block holds exactly the bytes taken. *)
Theorem read_line_conserves_stream C sg mb fuel w :
  0 < C -> 0 < mb -> C + mb < 2 ^ 64 -> heap w = ∅ ->
  read_line_took C sg (stdin w)
    (read_line C sg mb fuel w).1 (read_line C sg mb fuel w).2.
Proof.
  intros HC Hmb0 Hmb Hw.
  assert (Hsz : size_t (1 * (C + 1)) = C + 1)
    by (rewrite Z.mul_1_l; apply size_t_small; lia).
  pose proof (wp_malloc mb (C + 1) w Hw) as Hm.
  pose proof (malloc_stdin mb (C + 1) w) as Hs.
  unfold read_line, wp in *. rewrite Hsz.
  destruct (malloc mb _ w) as [[[p|]|r|] w1]; cbn [fst snd] in *; try done.
  - destruct Hm as [Hh Hfit].
    apply (loop_wp_running (read_line_body C sg mb)
             (read_line_keeps C mb (stdin w)) (read_line_took C sg (stdin w))
             (read_line_body_keeps C sg mb HC Hmb (stdin w))).
    + exists [], (C + 1). cbn [app length l_buffer l_length l_written].
      unfold filled. cbn [fmap list_fmap app length]. rewrite Nat.sub_0_r.
      repeat split; try done; lia.
    + intros l' w' (consumed & cap & Hs' & Hh' & Hlen & _ & HlenC & _).
      exists consumed, (l_buffer l'), cap. split_and!; [done | done | lia].
  - exists []. rewrite Hs. auto.
Qed.

(** On "abcdefghij" with C = 4. *)
Lemma read_line_conserves_stream_witness :
  read_line_took 4 true abcdefghij
    (read_line 4 true PTRDIFF_MAX 5 (initial_world abcdefghij)).1
    (read_line 4 true PTRDIFF_MAX 5 (initial_world abcdefghij)).2.
Proof.
  apply (read_line_conserves_stream 4 true PTRDIFF_MAX 5
           (initial_world abcdefghij)); reflexivity.
Defined.

(** ** The first read *)

Lemma free_only p si rs al ind cells np tr :
  free p (mkWorld si rs al ind {[p := cells]} np tr) =
  (Val tt, mkWorld si rs al ind ∅ np (tr ++ [EvFree p])).
Proof.
  unfold free. cbn. rewrite lookup_singleton_eq. cbn.
  by rewrite delete_singleton_eq.
Qed.

(** X3.  When the first read returns nothing (the stream is at its end),
    [read_line] returns a buffer, not NULL: one chunk and a terminator long,
    holding the empty text, with nothing taken from the stream and no
    reallocation. *)
Theorem read_line_at_end_of_stream C sg mb fuel w :
  0 < C -> C + 1 <= mb -> mb < 2 ^ 64 ->
  heap w = ∅ -> alloc_script w = [] ->
  (sys_read C w).1 = Some [] ->
  (0 < fuel)%nat ->
  result_cells (read_line C sg mb fuel w)
    = Some (Some x00 :: replicate (Z.to_nat C) None) /\
  result_text (read_line C sg mb fuel w) = Some [] /\
  stdin (read_line C sg mb fuel w).2 = stdin w /\
  reallocs (read_line C sg mb fuel w).2 = reallocs w.
Proof.
  intros HC Hfit Hmb Hh Ha Hrd Hfuel.
  destruct w as [si rs al ind h np tr]. cbn in Hh, Ha. subst.
  destruct fuel as [|fuel]; [lia|].
  destruct (sys_read_frame C si rs [] ind ∅ np tr) as (si' & rs' & Hfr).
  rewrite Hrd in Hfr.
  assert (Hsi : si' = si).
  { pose proof (fread_line_conserves OnStack C (mkWorld si rs [] ind ∅ np tr)) as Hc.
    unfold fread_line in Hc. rewrite Hfr in Hc. cbn in Hc. by destruct Hc. }
  subst si'.
  assert (E : read_line C sg mb (S fuel) (mkWorld si rs [] ind ∅ np tr)
              = (Returned (Some np),
                 mkWorld si rs' [] ind
                   {[np := Some x00 :: replicate (Z.to_nat C) None]} (S np)
                   ((tr ++ [EvMalloc (C + 1) (Some np)]) ++
                    [EvRead (InBlock np 0) C 0]))).
  { unfold read_line.
    rewrite Z.mul_1_l, size_t_small by lia.
    rewrite malloc_granted by lia.
    cbn [loop]. unfold read_line_body, grow_when_full, bind. simp.
    destruct (Z.eqb_spec 0 C) as [|_]; [lia|]. simp.
    change (0 =? 0) with true. cbv beta iota.
    rewrite Z.sub_0_r, size_t_small by lia.
    unfold fread_line at 1. cbv beta.
    rewrite (sys_read_transport _ _ _ _ _ _ _ _ _ _ _ _ _ _ _ _ Hfr).
    unfold bind. simp.
    rewrite store_bytes_inside by (rewrite ?length_replicate; cbn [length]; lia).
    simp. cbn [length fmap list_fmap list_inserts].
    change (Z.of_nat 0 =? -1) with false. change (Z.of_nat 0 =? 0) with true.
    change (Z.of_nat 0) with 0. cbv beta iota.
    rewrite store_inside by (rewrite length_replicate; lia). simp.
    replace (Z.to_nat (C + 1)) with (S (Z.to_nat C)) by lia.
    reflexivity. }
  unfold result_text, result_cells, reallocs. rewrite E.
  cbn [fst snd heap trace stdin]. rewrite lookup_singleton_eq.
  split_and!; try done.
  rewrite !omap_app. cbn. by rewrite !app_nil_r.
Qed.

(** The empty stream with the default chunk. *)
Lemma read_line_at_end_of_stream_witness :
  result_cells (read_line 250 true PTRDIFF_MAX 1 (initial_world []))
    = Some (Some x00 :: replicate (Z.to_nat 250) None) /\
  result_text (read_line 250 true PTRDIFF_MAX 1 (initial_world [])) = Some [] /\
  stdin (read_line 250 true PTRDIFF_MAX 1 (initial_world [])).2 = [] /\
  reallocs (read_line 250 true PTRDIFF_MAX 1 (initial_world [])).2 = 0%nat.
Proof.
  apply (read_line_at_end_of_stream 250 true PTRDIFF_MAX 1 (initial_world []));
    try reflexivity.
  - by vm_compute.
  - apply Nat.lt_0_1.
Defined.

(** X4.  When the first read fails, [read_line] and [raw_read_line] both
    return NULL after freeing their buffer, and the stream is as it was:
    no byte is lost. *)
Theorem first_read_failure_loses_nothing C sg mb fuel w rs :
  0 < C -> C + 1 <= mb -> mb < 2 ^ 64 ->
  heap w = ∅ -> alloc_script w = [] -> rd_script w = RdFail :: rs ->
  (0 < fuel)%nat ->
  ((read_line C sg mb fuel w).1 = Returned None /\
   stdin (read_line C sg mb fuel w).2 = stdin w /\
   rd_script (read_line C sg mb fuel w).2 = rs /\
   heap (read_line C sg mb fuel w).2 = ∅) /\
  ((raw_read_line C sg mb fuel w).1 = Returned None /\
   stdin (raw_read_line C sg mb fuel w).2 = stdin w /\
   rd_script (raw_read_line C sg mb fuel w).2 = rs /\
   heap (raw_read_line C sg mb fuel w).2 = ∅).
Proof.
  intros HC Hfit Hmb Hh Ha Hr Hfuel.
  destruct w as [si rs0 al ind h np tr]. cbn in Hh, Ha, Hr. subst.
  destruct fuel as [|fuel]; [lia|].
  split.
  - unfold read_line.
    rewrite Z.mul_1_l, size_t_small by lia.
    rewrite malloc_granted by lia.
    cbn [loop]. unfold read_line_body, grow_when_full, bind. simp.
    destruct (Z.eqb_spec 0 C) as [|_]; [lia|]. simp.
    change (0 =? 0) with true. cbv beta iota.
    unfold fread_line, sys_read. simp.
    change (-1 =? -1) with true. cbv beta iota.
    rewrite free_only. simp. done.
  - unfold raw_read_line.
    rewrite Z.mul_1_l, size_t_small by lia.
    rewrite malloc_granted by lia.
    cbn [loop]. unfold raw_read_line_body, grow_when_full, bind. simp.
    destruct (Z.eqb_spec 0 C) as [|_]; [lia|]. simp.
    unfold uninit_char, fread_line, sys_read. simp.
    change (-1 =? -1) with true. cbv beta iota.
    rewrite free_only. simp. done.
Qed.

(** "hi" behind a read that fails. *)
Lemma first_read_failure_loses_nothing_witness :
  ((read_line 250 true PTRDIFF_MAX 1 read_fails_world).1 = Returned None /\
   stdin (read_line 250 true PTRDIFF_MAX 1 read_fails_world).2 = hi /\
   rd_script (read_line 250 true PTRDIFF_MAX 1 read_fails_world).2 = [] /\
   heap (read_line 250 true PTRDIFF_MAX 1 read_fails_world).2 = ∅) /\
  ((raw_read_line 250 true PTRDIFF_MAX 1 read_fails_world).1 = Returned None /\
   stdin (raw_read_line 250 true PTRDIFF_MAX 1 read_fails_world).2 = hi /\
   rd_script (raw_read_line 250 true PTRDIFF_MAX 1 read_fails_world).2 = [] /\
   heap (raw_read_line 250 true PTRDIFF_MAX 1 read_fails_world).2 = ∅).
Proof.
  apply (first_read_failure_loses_nothing 250 true PTRDIFF_MAX 1
           read_fails_world []); try reflexivity.
  - by vm_compute.
  - apply Nat.lt_0_1.
Defined.

(** ** How the buffer of [raw_read_line] grows *)

(** Counting iterations along the loop. *)
Lemma loop_state_wp_count {L} (body : L -> M L) (I : nat -> L -> World -> Prop) :
  (forall k l w, I k l w ->
     wp (body l) w (fun r w' =>
       match r with Val l' => I (S k) l' w' | _ => True end)) ->
  forall n k l w l' w',
    I k l w -> loop_state body n l w = Some (l', w') -> I (n + k)%nat l' w'.
Proof.
  intros Hbody. induction n as [|n IH]; intros k l w l' w' Hi; cbn.
  - intros [= <- <-]. exact Hi.
  - specialize (Hbody k l w Hi). unfold wp in Hbody.
    destruct (body l w) as [[l1|r|] w1]; cbn in *; try done.
    intros Hs. replace (S (n + k)) with (n + S k)%nat by lia. by eapply IH.
Qed.

Lemma wp_and_after {A} (m : M A) w (Q : flow A -> World -> Prop)
    (P : World -> Prop) :
  wp m w Q -> P (m w).2 -> wp m w (fun r w' => Q r w' /\ P w').
Proof. unfold wp. auto. Qed.

Lemma reallocs_log e w :
  reallocs (log e w) =
  (reallocs w + match e with EvRealloc _ _ (Some _) => 1 | _ => 0 end)%nat.
Proof.
  unfold reallocs, log. cbn [trace]. rewrite omap_app, length_app.
  f_equal. by destruct e as [| ? ? []| |].
Qed.

Lemma grow_when_full_reallocs C mb l w :
  match grow_when_full C mb l w with
  | (Val _, w') =>
      reallocs w' = (if l_written l =? C then S (reallocs w) else reallocs w)
  | _ => True
  end.
Proof.
  unfold grow_when_full, bind, realloc, free, alloc_grant, pure, ret_fn.
  destruct (l_written l =? C); [|done].
  repeat (case_match; simplify_eq/=); try done;
    rewrite reallocs_log; unfold reallocs; cbn; lia.
Qed.

Lemma fread_line_stack_reallocs size w :
  reallocs (fread_line OnStack size w).2 = reallocs w.
Proof.
  unfold fread_line, sys_read.
  destruct (rd_script w) as [|[|k] rs]; cbn [fst snd];
    rewrite reallocs_log; unfold reallocs; cbn; lia.
Qed.

Lemma store_reallocs p i c w : reallocs (store p i c w).2 = reallocs w.
Proof. unfold store, set_heap. frame_cases. Qed.

Lemma malloc_reallocs mb size w : reallocs (malloc mb size w).2 = reallocs w.
Proof.
  unfold malloc, alloc_grant.
  repeat (case_match; simplify_eq/=);
    rewrite reallocs_log; unfold reallocs; cbn; lia.
Qed.

Section Growth.
Variables (C : Z) (sg : bool) (mb : Z).
Hypothesis HC : 0 < C.
Hypothesis Hmb : C + mb < 2 ^ 64.

Lemma raw_read_line_body_grows r0 n l w :
  raw_read_line_grown C mb r0 n l w ->
  wp (raw_read_line_body C sg mb l) w (fun r w' =>
    match r with
    | Val l' => raw_read_line_grown C mb r0 (S n) l' w'
    | _ => True
    end).
Proof.
  intros (cells & j & Hh & Hre & Hn & Hlen & Hwr & Hcap & Hmax).
  unfold raw_read_line_body. apply wp_bind.
  pose proof (wp_grow_when_full C mb l w cells Hh) as Hg.
  pose proof (grow_when_full_reallocs C mb l w) as Hr.
  unfold wp at 1. unfold wp in Hg.
  destruct (grow_when_full C mb l w) as [[l1|[p|]|] w1]; cbn [fst snd] in *;
    try done.
  destruct Hg as [Hl1 Hg].
  assert (exists cells1 j1, heap w1 = {[l_buffer l1 := cells1]} /\
            reallocs w1 = (r0 + j1)%nat /\
            l_length l1 = C * Z.of_nat j1 + l_written l1 /\
            0 <= l_written l1 < C /\
            Z.of_nat (length cells1) = C * (Z.of_nat j1 + 1) + 1 /\
            Z.of_nat (length cells1) <= mb)
    as (cells1 & j1 & Hh1 & Hre1 & Hlen1 & Hwr1 & Hcap1 & Hmax1).
  { destruct Hg as [(Hne & -> & Hw) | (He & Hw0 & Hfit & Hw)].
    - apply Z.eqb_neq in Hne as Hne'. rewrite Hne' in Hr.
      exists cells, j. rewrite Hw. split_and!; try done; lia.
    - apply Z.eqb_eq in He as He'. rewrite He' in Hr.
      rewrite Z.mul_1_l, size_t_small in * by lia.
      eexists _, (S j). split; [exact Hw|]. rewrite length_resize.
      split_and!; lia. }
  rewrite <- Hl1 in Hn. clear Hg Hr Hh Hcap Hmax Hwr Hlen Hl1 Hre cells.
  apply wp_bind. eapply wp_mono; [apply wp_uninit_char|].
  intros r w2 [-> [c0 ->]].
  apply wp_bind.
  pose proof (wp_fread_line_stack 1 w1) as Hf.
  pose proof (fread_line_stack_reallocs 1 w1) as Hfr.
  unfold wp at 1. unfold wp in Hf.
  destruct (fread_line OnStack 1 w1) as [[[m bs]|r|] w3]; cbn [fst snd] in *;
    try done.
  destruct Hf as [Hh3 _]. rewrite Hh1 in Hh3.
  destruct (m =? -1).
  { apply wp_bind. unfold wp. by destruct (free _ _) as [[[]|?|] ?]. }
  destruct (_ || _).
  { apply wp_bind. unfold wp. by destruct (store _ _ _ _) as [[[]|?|] ?]. }
  apply wp_bind.
  eapply wp_mono;
    [eapply (wp_and_after _ _ _ (fun w' => reallocs w' = reallocs w3));
     [by eapply wp_store | apply store_reallocs]|].
  intros [[]|r|] w4 [H4 Hr4]; try done.
  apply wp_pure. destruct H4 as [_ H4].
  eexists _, j1. split; [exact H4|].
  cbn [l_buffer l_length l_written].
  rewrite length_insert, !size_t_small by lia.
  split_and!; lia.
Qed.

End Growth.

(** X5.  The buffer of [raw_read_line] grows by one chunk at a time: at the
    head of the loop after [n] iterations, [n] bytes are stored, and if [j]
    reallocations were made then [n = C * j + written] with [written] at most
    a chunk, and the block is exactly [C * (j + 1) + 1] bytes long. *)
Theorem raw_read_line_grows_by_chunks C sg mb n w :
  0 < C -> 0 < mb -> C + mb < 2 ^ 64 -> heap w = ∅ ->
  match raw_read_line_state C sg mb n w with
  | Some (l, w') =>
      exists j cells,
        reallocs w' = (reallocs w + j)%nat /\
        l_length l = Z.of_nat n /\
        l_length l = C * Z.of_nat j + l_written l /\
        0 <= l_written l <= C /\
        heap w' !! l_buffer l = Some cells /\
        Z.of_nat (length cells) = C * (Z.of_nat j + 1) + 1
  | None => True
  end.
Proof.
  intros HC Hmb0 Hmb Hw.
  destruct (raw_read_line_state C sg mb n w) as [[l w']|] eqn:Est; [|done].
  revert Est.
  assert (Hsz : size_t (1 * (C + 1)) = C + 1)
    by (rewrite Z.mul_1_l; apply size_t_small; lia).
  pose proof (wp_malloc mb (C + 1) w Hw) as Hm.
  pose proof (malloc_reallocs mb (C + 1) w) as Hr.
  unfold raw_read_line_state, wp in *. rewrite Hsz.
  destruct (malloc mb _ w) as [[[p|]|r|] w1]; cbn [fst snd] in *; try done.
  destruct Hm as [Hh Hfit]. intros Hs.
  pose proof (loop_state_wp_count (raw_read_line_body C sg mb)
                (raw_read_line_grown C mb (reallocs w))
                (raw_read_line_body_grows C sg mb HC Hmb (reallocs w))
                n 0%nat (mkLocals p 0 0) w1 l w') as H.
  destruct H as (cells & j & Hc & Hre & Hn & Hlen & Hwr & Hcap & _);
    [| exact Hs |].
  - eexists _, 0%nat. split; [exact Hh|]. rewrite length_replicate.
    cbn [l_buffer l_length l_written]. split_and!; lia.
  - exists j, cells. rewrite Hc, lookup_singleton_eq, Nat.add_0_r in *.
    split_and!; try done; lia.
Qed.

(** Six bytes into "hi\nabc\0z" with C = 4. *)
Lemma raw_read_line_grows_by_chunks_witness :
  match raw_read_line_state 4 true PTRDIFF_MAX 6 (initial_world two_lines_nul)
  with
  | Some (l, w') =>
      exists j cells,
        reallocs w' = (reallocs (initial_world two_lines_nul) + j)%nat /\
        l_length l = Z.of_nat 6 /\
        l_length l = 4 * Z.of_nat j + l_written l /\
        0 <= l_written l <= 4 /\
        heap w' !! l_buffer l = Some cells /\
        Z.of_nat (length cells) = 4 * (Z.of_nat j + 1) + 1
  | None => True
  end.
Proof.
  apply (raw_read_line_grows_by_chunks 4 true PTRDIFF_MAX 6
           (initial_world two_lines_nul)); reflexivity.
Defined.

(** ** Line after line *)

(** *** Steps on a heap that holds other blocks too *)

Lemma malloc_granted_among mb size si rs ind h np tr :
  size <= mb ->
  malloc mb size (mkWorld si rs [] ind h np tr) =
  (Val (Some np),
   mkWorld si rs [] ind (<[np := replicate (Z.to_nat size) None]> h) (S np)
     (tr ++ [EvMalloc size (Some np)])).
Proof.
  intros H. unfold malloc, alloc_grant. cbn.
  destruct (Z.leb_spec size mb); [|lia]. reflexivity.
Qed.

Lemma store_among p i c si rs al ind cells (h : gmap nat (list (option byte))) np tr :
  0 <= i < Z.of_nat (length cells) ->
  store p i c (mkWorld si rs al ind (<[p := cells]> h) np tr) =
  (Val tt,
   mkWorld si rs al ind (<[p := <[Z.to_nat i := Some c]> cells]> h) np tr).
Proof.
  intros H. unfold store. cbn. rewrite lookup_insert_eq.
  destruct (Z.leb_spec 0 i), (Z.ltb_spec i (Z.of_nat (length cells))); try lia.
  cbn. by rewrite insert_insert_eq.
Qed.

Lemma store_bytes_among p off bs si rs al ind cells
    (h : gmap nat (list (option byte))) np tr :
  0 <= off -> off + Z.of_nat (length bs) <= Z.of_nat (length cells) ->
  store_bytes p off bs (mkWorld si rs al ind (<[p := cells]> h) np tr) =
  (Val tt,
   mkWorld si rs al ind
     (<[p := list_inserts (Z.to_nat off) (Some <$> bs) cells]> h) np tr).
Proof.
  intros H1 H2. unfold store_bytes. cbn. rewrite lookup_insert_eq.
  destruct (Z.leb_spec 0 off),
    (Z.leb_spec (off + Z.of_nat (length bs)) (Z.of_nat (length cells)));
    try lia.
  cbn. by rewrite insert_insert_eq.
Qed.

Lemma load_among p i c si rs al ind cells
    (h : gmap nat (list (option byte))) np tr :
  0 <= i -> cells !! Z.to_nat i = Some (Some c) ->
  load p i (mkWorld si rs al ind (<[p := cells]> h) np tr) =
  (Val c, mkWorld si rs al ind (<[p := cells]> h) np tr).
Proof.
  intros H1 H2. unfold load. cbn. rewrite lookup_insert_eq.
  apply lookup_lt_Some in H2 as Hlt.
  destruct (Z.leb_spec 0 i), (Z.ltb_spec i (Z.of_nat (length cells))); try lia.
  cbn. by rewrite H2.
Qed.

(** The read a terminal answers with one line. *)
Lemma sys_read_line size line rest rs al ind h np tr :
  Z.of_nat (length line) < size ->
  sys_read size
    (mkWorld ((line ++ [x0a]) ++ rest)
       (RdAtMost (Pos.of_succ_nat (length line)) :: rs) al ind h np tr)
  = (Some (line ++ [x0a]), mkWorld rest rs al ind h np tr).
Proof.
  intros H. unfold sys_read. cbn [stdin rd_script set_stdin].
  assert (Hn : length (line ++ [x0a]) = S (length line))
    by (rewrite length_app; cbn; lia).
  replace (Z.to_nat _) with (length (line ++ [x0a]))
    by (rewrite Zpos_P_of_succ_nat, !length_app; cbn [length]; lia).
  by rewrite take_app_length, drop_app_length.
Qed.

Section Lines.
Variables (C : Z) (sg : bool) (mb : Z).
Hypothesis HC : 0 < C.
Hypothesis Hfit : C + 1 <= mb.
Hypothesis Hmb : mb < 2 ^ 64.

(** One call on a terminal, whatever else the heap holds. *)
Lemma read_line_one_line line rest rs ind h np tr fuel :
  Z.of_nat (length line) < C ->
  read_line C sg mb (S fuel)
    (mkWorld ((line ++ [x0a]) ++ rest)
       (RdAtMost (Pos.of_succ_nat (length line)) :: rs) [] ind h np tr)
  = (Returned (Some np),
     mkWorld rest rs [] ind
       (<[np := (Some <$> line) ++ Some x00 ::
                  replicate (Z.to_nat C - length line) None]> h) (S np)
       ((tr ++ [EvMalloc (C + 1) (Some np)]) ++
        [EvRead (InBlock np 0) C (Z.of_nat (S (length line)))])).
Proof.
  intros Hlen. unfold read_line.
  rewrite Z.mul_1_l, size_t_small by lia.
  rewrite malloc_granted_among by lia.
  cbn [loop]. unfold read_line_body, grow_when_full, bind. simp.
  destruct (Z.eqb_spec 0 C) as [|_]; [lia|]. simp.
  change (0 =? 0) with true. cbv beta iota.
  rewrite Z.sub_0_r, size_t_small by lia.
  unfold fread_line at 1. cbv beta.
  rewrite sys_read_line by lia.
  unfold bind. simp.
  assert (Hn : length (line ++ [x0a]) = S (length line))
    by (rewrite length_app; cbn; lia).
  rewrite store_bytes_among by (rewrite ?length_replicate, ?Hn; lia).
  simp. rewrite Hn.
  destruct (Z.eqb_spec (Z.of_nat (S (length line))) (-1)) as [|_]; [lia|].
  destruct (Z.eqb_spec (Z.of_nat (S (length line))) 0) as [|_]; [lia|].
  simp. rewrite Z.add_0_l, !size_t_small by lia. simp.
  destruct (Z.ltb_spec 0 (Z.of_nat (S (length line)))) as [_|]; [|lia].
  change (Z.to_nat 0) with 0%nat.
  replace (Z.to_nat (C + 1))
    with (S (length line) + (Z.to_nat C - length line))%nat by lia.
  rewrite replicate_add, list_inserts_0_r
    by (rewrite length_fmap, length_replicate; lia).
  rewrite fmap_app, <- app_assoc. cbn [fmap list_fmap app].
  replace (Z.of_nat (S (length line)) - 1) with (Z.of_nat (length line)) by lia.
  rewrite (load_among _ _ x0a)
    by (try lia; rewrite Nat2Z.id; apply list_lookup_middle;
        by rewrite length_fmap).
  replace ((char_to_int sg x0a =? EOF) || (char_to_int sg x0a =? 10)) with true
    by (by destruct sg).
  rewrite store_among
    by (rewrite length_app, length_fmap; cbn [length]; lia).
  simp. do 3 f_equal.
  rewrite Nat2Z.id.
  rewrite insert_app_r_alt by (rewrite length_fmap; lia).
  by rewrite length_fmap, Nat.sub_diag.
Qed.

Lemma read_lines_on_terminal lines : forall rest rs ind h np tr fuel,
  Forall (fun l => Z.of_nat (length l) < C /\ Forall (fun c => c <> x00) l)
    lines ->
  let r := read_lines C sg mb (S fuel) (length lines)
             (mkWorld (with_newlines lines ++ rest) (line_reads lines ++ rs)
                [] ind h np tr) in
  r.1 = Some <$> seq np (length lines) /\
  (forall i l, lines !! i = Some l ->
     c_string <$> (heap r.2 !! (np + i)%nat) = Some l) /\
  (forall q, (q < np)%nat -> heap r.2 !! q = h !! q) /\
  stdin r.2 = rest /\ rd_script r.2 = rs.
Proof.
  induction lines as [|line lines IH]; intros rest rs ind h np tr fuel Hl.
  - cbn. split_and!; try done.
  - apply Forall_cons in Hl as [[Hlen Hnz] Hl].
    cbn [length read_lines with_newlines line_reads fmap list_fmap concat app].
    rewrite <- app_assoc.
    change (concat ((fun l => l ++ [x0a]) <$> lines)) with (with_newlines lines).
    change ((fun l => RdAtMost (Pos.of_succ_nat (length l))) <$> lines)
      with (line_reads lines).
    rewrite read_line_one_line by done.
    specialize (IH rest rs ind
                  (<[np := (Some <$> line) ++ Some x00 ::
                             replicate (Z.to_nat C - length line) None]> h)
                  (S np)
                  ((tr ++ [EvMalloc (C + 1) (Some np)]) ++
                   [EvRead (InBlock np 0) C (Z.of_nat (S (length line)))])
                  fuel Hl).
    cbn zeta in IH.
    destruct (read_lines _ _ _ _ _ _) as [ps w2]. cbn [fst snd] in *.
    destruct IH as (Hps & Htext & Hframe & Hstdin & Hscript).
    split_and!; try done.
    + cbn [returned_buffer seq fmap list_fmap]. by rewrite Hps.
    + intros [|i] l Hi; cbn in Hi.
      * injection Hi as <-. rewrite Nat.add_0_r.
        rewrite Hframe by lia. rewrite lookup_insert_eq. cbn.
        f_equal. by apply c_string_terminated.
      * replace (np + S i)%nat with (S np + i)%nat by lia. by apply Htext.
    + intros q Hq. rewrite Hframe by lia. by rewrite lookup_insert_ne by lia.
Qed.

End Lines.

(** X6.  At a terminal that hands over one line per read, with every line
    shorter than a chunk and free of null bytes, as many calls of [read_line]
    as there are lines return fresh blocks, one per call, whose texts are the
    lines in order; the blocks that were live before are untouched, and what
    follows the lines stays on the stream. *)
Theorem read_line_reads_successive_lines C sg mb lines rest rs fuel w :
  0 < C -> C + 1 <= mb -> mb < 2 ^ 64 ->
  Forall (fun l => Z.of_nat (length l) < C /\ Forall (fun c => c <> x00) l)
    lines ->
  alloc_script w = [] ->
  rd_script w = line_reads lines ++ rs ->
  stdin w = with_newlines lines ++ rest ->
  (0 < fuel)%nat ->
  (read_lines C sg mb fuel (length lines) w).1
    = Some <$> seq (next_ptr w) (length lines) /\
  (forall i l, lines !! i = Some l ->
     c_string <$> (heap (read_lines C sg mb fuel (length lines) w).2
                     !! (next_ptr w + i)%nat) = Some l) /\
  (forall q, (q < next_ptr w)%nat ->
     heap (read_lines C sg mb fuel (length lines) w).2 !! q = heap w !! q) /\
  stdin (read_lines C sg mb fuel (length lines) w).2 = rest /\
  rd_script (read_lines C sg mb fuel (length lines) w).2 = rs.
Proof.
  intros HC Hfit Hmb Hl Ha Hr Hs Hfuel.
  destruct w as [si rs0 al ind h np tr]. cbn in Ha, Hr, Hs. subst.
  destruct fuel as [|fuel]; [lia|].
  exact (read_lines_on_terminal C sg mb HC Hfit Hmb lines rest rs ind h np tr
           fuel Hl).
Qed.

(** "hi" and "abc" typed at a terminal. *)
Lemma read_line_reads_successive_lines_witness :
  (read_lines 250 true PTRDIFF_MAX 1 (length two_lines) terminal_world).1
    = Some <$> seq (next_ptr terminal_world) (length two_lines) /\
  (forall i l, two_lines !! i = Some l ->
     c_string <$>
       (heap (read_lines 250 true PTRDIFF_MAX 1 (length two_lines)
                terminal_world).2
          !! (next_ptr terminal_world + i)%nat) = Some l) /\
  (forall q, (q < next_ptr terminal_world)%nat ->
     heap (read_lines 250 true PTRDIFF_MAX 1 (length two_lines)
             terminal_world).2 !! q = heap terminal_world !! q) /\
  stdin (read_lines 250 true PTRDIFF_MAX 1 (length two_lines)
           terminal_world).2 = [] /\
  rd_script (read_lines 250 true PTRDIFF_MAX 1 (length two_lines)
               terminal_world).2 = [].
Proof.
  apply (read_line_reads_successive_lines 250 true PTRDIFF_MAX two_lines [] []
           1 terminal_world); try reflexivity.
  - by vm_compute.
  - repeat constructor; discriminate.
  - apply Nat.lt_0_1.
Defined.

(** ** [raw_read_line] and the stream *)

Lemma zero_reads_log e w :
  zero_reads (log e w) =
  (zero_reads w + match e with EvRead _ _ Z0 => 1 | _ => 0 end)%nat.
Proof.
  unfold zero_reads, log. cbn [trace]. rewrite omap_app, length_app.
  f_equal. by destruct e as [| | |? ? []].
Qed.

Lemma grow_when_full_zero_reads C mb l w :
  zero_reads (grow_when_full C mb l w).2 = zero_reads w.
Proof.
  unfold grow_when_full, bind, realloc, free, alloc_grant, pure, ret_fn.
  repeat (case_match; simplify_eq/=); try done;
    unfold zero_reads, log, set_heap, set_alloc_script; cbn [trace];
    rewrite ?omap_app, ?length_app; cbn; lia.
Qed.

Lemma store_zero_reads p i c w : zero_reads (store p i c w).2 = zero_reads w.
Proof. unfold store, set_heap. frame_cases. Qed.

Lemma malloc_zero_reads mb size w :
  zero_reads (malloc mb size w).2 = zero_reads w.
Proof.
  unfold malloc, alloc_grant.
  repeat (case_match; simplify_eq/=);
    rewrite zero_reads_log; unfold zero_reads; cbn; lia.
Qed.

(** What a read of one byte into a local can do. *)
Lemma fread_line_one_cases w :
  match fread_line OnStack 1 w with
  | (Val (n, bs), w') =>
      heap w' = heap w /\
      ((n = -1 /\ stdin w' = stdin w) \/
       (n = 0 /\ bs = [] /\ stdin w' = stdin w /\
        zero_reads w' = S (zero_reads w)) \/
       (exists b, n = 1 /\ bs = [b] /\ stdin w = b :: stdin w' /\
                  zero_reads w' = zero_reads w))
  | _ => False
  end.
Proof.
  pose proof (sys_read_one_cases w) as H.
  pose proof (sys_read_heap 1 w) as Hh.
  assert (Ht : trace (sys_read 1 w).2 = trace w).
  { unfold sys_read. destruct (rd_script w) as [|[|k] rs]; reflexivity. }
  assert (Hz : zero_reads (sys_read 1 w).2 = zero_reads w)
    by (unfold zero_reads; by rewrite Ht).
  unfold fread_line.
  destruct (sys_read 1 w) as [[bs|] w1]; cbn [fst snd] in *.
  - split; [done|].
    destruct H as [[H _] | [[H Hs] | (b & H & Hs)]]; [done | |];
      injection H as ->.
    + right; left. rewrite zero_reads_log, Hz.
      change (Z.of_nat (length (@nil byte))) with 0. cbv iota.
      split_and!; try done; lia.
    + right; right. exists b. rewrite zero_reads_log, Hz.
      change (Z.of_nat (length [b])) with 1. cbv iota.
      split_and!; try done; lia.
  - split; [done|]. left. split; [done|].
    by destruct H as [[_ H] | [[H _] | (b & H & _)]].
Qed.

Lemma stop_test_false_inv sg c :
  ((char_to_int sg c =? 0) || (char_to_int sg c =? EOF)) = false ->
  ~ stops sg c.
Proof. intros H Hs. apply stop_test in Hs. congruence. Qed.

Section RawConservation.
Variables (C : Z) (sg : bool) (mb : Z).
Hypothesis HC : 0 < C.
Hypothesis Hmb : C + mb < 2 ^ 64.

Lemma raw_read_line_body_keeps s0 z0 l w :
  raw_read_line_keeps C sg mb s0 z0 l w ->
  wp (raw_read_line_body C sg mb l) w (fun r w' =>
    match r with
    | Val l' => raw_read_line_keeps C sg mb s0 z0 l' w'
    | Return r' => raw_read_line_took sg s0 z0 (Returned r') w'
    | Fault => False
    end).
Proof.
  intros (consumed & stored & Hs & Hsub & Hns & Hh & Hlen & Hwr & Hmax
          & Hz0 & Hzeq).
  unfold raw_read_line_body. apply wp_bind.
  pose proof (wp_grow_when_full C mb l w _ Hh) as Hg.
  pose proof (grow_when_full_stdin C mb l w) as Hgs.
  pose proof (grow_when_full_zero_reads C mb l w) as Hgz.
  unfold wp at 1. unfold wp in Hg.
  destruct (grow_when_full C mb l w) as [[l1|[p|]|] w1]; cbn [fst snd] in *;
    try done.
  destruct Hg as [Hl1 Hg].
  assert (heap w1 = {[l_buffer l1 :=
                        filled stored (l_length l1 - l_written l1 + C + 1)]} /\
          0 <= l_written l1 < C /\
          l_length l1 - l_written l1 + C + 1 <= mb) as (Hh1 & Hwr1 & Hmax1).
  { destruct Hg as [(Hne & -> & Hw) | (He & Hw0 & Hfit & Hw)].
    - rewrite Hw. split; [done|]. lia.
    - rewrite Z.mul_1_l, size_t_small in * by lia.
      rewrite Hw, filled_resize_any by lia.
      rewrite Hw0, Hl1. split; [f_equal; f_equal; lia | lia]. }
  rewrite <- Hl1 in Hlen. rewrite <- Hgs in Hs. rewrite <- Hgz in Hz0, Hzeq.
  clear Hg Hh Hmax Hwr Hl1 Hgs Hgz.
  apply wp_bind. eapply wp_mono; [apply wp_uninit_char|].
  intros r w2 [-> [c0 ->]].
  apply wp_bind.
  pose proof (fread_line_one_cases w1) as Hf.
  unfold wp at 1.
  destruct (fread_line OnStack 1 w1) as [[[n bs]|r|] w3]; cbn [fst snd] in *;
    try done.
  destruct Hf as [Hh3 Hf]. rewrite Hh1 in Hh3.
  set (cap := l_length l1 - l_written l1 + C + 1) in *.
  destruct Hf as [[-> Hs3] | [(-> & -> & Hs3 & Hz3) | (b & -> & -> & Hs3 & Hz3)]].
  - cbn. apply wp_fail_path; [by eexists | done].
  - change (0 =? -1) with false. cbv iota.
    destruct ((char_to_int sg c0 =? 0) || (char_to_int sg c0 =? EOF)) eqn:Et.
    + apply wp_bind.
      eapply wp_mono;
        [eapply (wp_and_after _ _ _
                   (fun w' => stdin w' = stdin w3 /\
                              zero_reads w' = zero_reads w3));
         [by eapply wp_store
         | split; [apply store_stdin | apply store_zero_reads]]|].
      intros [[]|r|] w4 [H4 [Hs4 Hz4]];
        [| done | apply (proj1 H4); rewrite filled_length by lia; lia].
      apply wp_ret_fn. destruct H4 as [_ H4].
      rewrite Hlen, filled_store in H4 by lia.
      eexists consumed, [], stored, _. cbn [app].
      rewrite Hs4, Hs3. split_and!; try done; [by left | lia].
    + apply stop_test_false_inv in Et.
      apply wp_bind.
      eapply wp_mono;
        [eapply (wp_and_after _ _ _
                   (fun w' => stdin w' = stdin w3 /\
                              zero_reads w' = zero_reads w3));
         [by eapply wp_store
         | split; [apply store_stdin | apply store_zero_reads]]|].
      intros [[]|r|] w4 [H4 [Hs4 Hz4]];
        [| done | apply (proj1 H4); rewrite filled_length by lia; lia].
      apply wp_pure. destruct H4 as [_ H4].
      rewrite Hlen, filled_snoc in H4 by lia.
      exists consumed, (stored ++ [c0]).
      cbn [l_buffer l_length l_written].
      rewrite !size_t_small by lia. rewrite length_app. cbn [length].
      rewrite Hs4, Hs3, Hz4, Hz3. split_and!; try done; try lia.
      * by apply sublist_inserts_r.
      * apply Forall_app. split; [done|]. by constructor.
      * rewrite H4. do 2 f_equal. lia.
  - change (1 =? -1) with false. cbv iota.
    destruct ((char_to_int sg b =? 0) || (char_to_int sg b =? EOF)) eqn:Et.
    + apply stop_test in Et.
      apply wp_bind.
      eapply wp_mono;
        [eapply (wp_and_after _ _ _
                   (fun w' => stdin w' = stdin w3 /\
                              zero_reads w' = zero_reads w3));
         [by eapply wp_store
         | split; [apply store_stdin | apply store_zero_reads]]|].
      intros [[]|r|] w4 [H4 [Hs4 Hz4]];
        [| done | apply (proj1 H4); rewrite filled_length by lia; lia].
      apply wp_ret_fn. destruct H4 as [_ H4].
      rewrite Hlen, filled_store in H4 by lia.
      eexists consumed, [b], stored, _. cbn [app].
      rewrite Hs4, <- Hs3, Hz4, Hz3. split_and!; try done.
      * right. by exists b.
      * intros Hz. split; [by apply Hzeq | done].
    + apply stop_test_false_inv in Et.
      apply wp_bind.
      eapply wp_mono;
        [eapply (wp_and_after _ _ _
                   (fun w' => stdin w' = stdin w3 /\
                              zero_reads w' = zero_reads w3));
         [by eapply wp_store
         | split; [apply store_stdin | apply store_zero_reads]]|].
      intros [[]|r|] w4 [H4 [Hs4 Hz4]];
        [| done | apply (proj1 H4); rewrite filled_length by lia; lia].
      apply wp_pure. destruct H4 as [_ H4].
      rewrite Hlen, filled_snoc in H4 by lia.
      exists (consumed ++ [b]), (stored ++ [b]).
      cbn [l_buffer l_length l_written].
      rewrite !size_t_small by lia. rewrite length_app. cbn [length].
      rewrite Hs4, Hz4, Hz3. split_and!; try done; try lia.
      * by rewrite <- app_assoc, Hs, Hs3.
      * by apply sublist_app.
      * apply Forall_app. split; [done|]. by constructor.
      * rewrite H4. do 2 f_equal. lia.
      * intros Hz. by rewrite Hzeq.
Qed.

End RawConservation.

(** X7.  Whatever the reads and the allocator do, when [raw_read_line]
    returns a buffer it holds a terminated text free of stop bytes that
    contains, in order, the bytes taken from the stream before the stop byte;
    at most the stop byte itself is taken besides.  If no read of the call
    returned 0, the text is exactly those bytes and the call stopped at a
    stop byte of the stream.  A NULL leaves no block behind. *)
Theorem raw_read_line_conserves_stream C sg mb fuel w :
  0 < C -> 0 < mb -> C + mb < 2 ^ 64 -> heap w = ∅ ->
  raw_read_line_took sg (stdin w) (zero_reads w)
    (raw_read_line C sg mb fuel w).1 (raw_read_line C sg mb fuel w).2.
Proof.
  intros HC Hmb0 Hmb Hw.
  assert (Hsz : size_t (1 * (C + 1)) = C + 1)
    by (rewrite Z.mul_1_l; apply size_t_small; lia).
  pose proof (wp_malloc mb (C + 1) w Hw) as Hm.
  pose proof (malloc_stdin mb (C + 1) w) as Hs.
  pose proof (malloc_zero_reads mb (C + 1) w) as Hz.
  unfold raw_read_line, wp in *. rewrite Hsz.
  destruct (malloc mb _ w) as [[[p|]|r|] w1]; cbn [fst snd] in *; try done.
  destruct Hm as [Hh Hfit].
  apply (loop_wp (raw_read_line_body C sg mb)
           (raw_read_line_keeps C sg mb (stdin w) (zero_reads w))
           (raw_read_line_took sg (stdin w) (zero_reads w))
           (raw_read_line_body_keeps C sg mb HC Hmb (stdin w) (zero_reads w)));
    [|done].
  exists [], []. cbn [app length l_buffer l_length l_written].
  unfold filled. cbn [fmap list_fmap app length].
  rewrite Nat.sub_0_r, Hs, Hz, Hh.
  split_and!; try done; try lia.
Qed.

(** On "hi\nabc\0z" with C = 4. *)
Lemma raw_read_line_conserves_stream_witness :
  raw_read_line_took true two_lines_nul 0
    (raw_read_line 4 true PTRDIFF_MAX 7 (initial_world two_lines_nul)).1
    (raw_read_line 4 true PTRDIFF_MAX 7 (initial_world two_lines_nul)).2.
Proof.
  apply (raw_read_line_conserves_stream 4 true PTRDIFF_MAX 7
           (initial_world two_lines_nul)); reflexivity.
Defined.
